(** * pyte layout engine: containers, flowables, chains and the document
      convergence loop

    A shallow embedding of [pyte/layout.py], [pyte/flowable.py] and
    [pyte/document.py].  Python objects are records; methods that mutate
    [self] return the new object state next to their outcome; an exception is
    the [Raise] outcome.  Lengths are integers of one fixed unit wherever a
    single addition or comparison is at stake; what depends on how sums of
    several advances round is stated over any arithmetic, binary64 included
    (see [Arithmetic]). *)

From Stdlib Require Import PrimFloat FloatOps SpecFloat.
From stdpp Require Import base numbers functions list gmap strings.

Open Scope Z_scope.
Set Warnings "-register-all".

(** ** Exceptions and outcomes *)

(** [EndOfContainer] and its subclass [EndOfPage], which carries the chain
    that ran out of containers ([raise EndOfPage(self)]). *)
Inductive exn : Type :=
  | EndOfContainer
  | EndOfPage (chain : nat).

(** [except EndOfPage] matches the subclass only; [except EndOfContainer]
    matches every value of [exn]. *)
Definition isinstance_EndOfPage (e : exn) : bool :=
  match e with
  | EndOfPage _ => true
  | EndOfContainer => false
  end.

Inductive outcome (A : Type) : Type :=
  | Return (a : A)
  | Raise (e : exn).
Arguments Return {A} a.
Arguments Raise {A} e.

Definition raised {A} (o : outcome A) : bool :=
  match o with
  | Return _ => false
  | Raise _ => true
  end.

(** ** Truth value of a length

    The class of lengths lives in [pyte/dimension.py], outside the three
    modules embedded here, so the truth value Python gives to a length
    ([if self.max_height and ...], [(right and width) is None]) is a
    parameter of the development. *)
Class Dimension := { truthy : Z → bool }.

(** Python's truth value of an optional length: [None] is false. *)
Definition bool_of `{Dimension} (v : option Z) : bool :=
  match v with
  | None => false
  | Some z => truthy z
  end.

(** ** Containers *)

(** The attributes [ContainerBase.__init__] sets that the flow protocol
    reads, and the height of the backend canvas read by [cursor]. *)
Record ContainerBase : Type := mkContainerBase {
  left : Z;
  width : Z;
  right : Z;
  _flowable_offset : Z;
  canvas_height : Z
}.

(** [Container]: a bounded rectangle. *)
Record Container : Type := mkContainer {
  c_base : ContainerBase;
  top : Z;
  height : Z;
  bottom : Z
}.

(** [ExpandingContainer]: its height follows the content. *)
Record ExpandingContainer : Type := mkExpandingContainer {
  e_base : ContainerBase;
  max_height : option Z;
  e_height : Z
}.

(** A container object of either class; method calls dispatch on the
    constructor. *)
Inductive container : Type :=
  | Bounded (c : Container)
  | Expanding (c : ExpandingContainer).

Definition base (c : container) : ContainerBase :=
  match c with
  | Bounded b => c_base b
  | Expanding e => e_base e
  end.

Definition offset (c : container) : Z := _flowable_offset (base c).

Definition height_of (c : container) : Z :=
  match c with
  | Bounded b => height b
  | Expanding e => e_height e
  end.

(** [self._flowable_offset += height] *)
Definition add_offset (b : ContainerBase) (h : Z) : ContainerBase :=
  mkContainerBase (left b) (width b) (right b) (_flowable_offset b + h)
                  (canvas_height b).

(** [ContainerBase.cursor]:
    [float(self.canvas.height) - self._flowable_offset] *)
Definition cursor (c : container) : Z :=
  canvas_height (base c) - offset c.

(** [Container.advance] *)
Definition Container_advance (c : Container) (h : Z)
  : Container * outcome unit :=
  let c' := mkContainer (add_offset (c_base c) h) (top c) (height c) (bottom c) in
  if height c' <? _flowable_offset (c_base c')
  then (c', Raise EndOfContainer)
  else (c', Return tt).

(** [ExpandingContainer.expand] *)
Definition expand (c : ExpandingContainer) (h : Z) : ExpandingContainer :=
  mkExpandingContainer (e_base c) (max_height c) (e_height c + h).

(** [ExpandingContainer.advance] *)
Definition ExpandingContainer_advance `{Dimension} (c : ExpandingContainer) (h : Z)
  : ExpandingContainer * outcome unit :=
  let c' := mkExpandingContainer (add_offset (e_base c) h) (max_height c)
                                 (e_height c) in
  if bool_of (max_height c') &&
     match max_height c' with
     | Some m => m <? _flowable_offset (e_base c')
     | None => false
     end
  then (c', Raise EndOfContainer)
  else (expand c' h, Return tt).

(** [container.advance(height)] on an object of either class. *)
Definition advance `{Dimension} (c : container) (h : Z) : container * outcome unit :=
  match c with
  | Bounded b => let '(b', r) := Container_advance b h in (Bounded b', r)
  | Expanding e => let '(e', r) := ExpandingContainer_advance e h in (Expanding e', r)
  end.

(** A caller that issues [advance(h1)], [advance(h2)], ... on one container
    and catches whatever each call raises: the container after the last call
    and the outcome of every call, in order. *)
Fixpoint advance_calls `{Dimension} (c : container) (hs : list Z)
  : container * list (outcome unit) :=
  match hs with
  | [] => (c, [])
  | h :: hs' =>
      let '(c1, r) := advance c h in
      let '(c2, rs) := advance_calls c1 hs' in
      (c2, r :: rs)
  end.

(** The exact sum [h1 + ... + hn]. *)
Definition total (hs : list Z) : Z := foldr Z.add 0 hs.

(** ** Construction of a container *)

(** What a constructor call ends in: the new object, or one of the two
    exceptions Python itself raises on the way.  Neither constructor has a
    [raise] statement of its own. *)
Inductive init_result (A : Type) : Type :=
  | Built (a : A)
  | TypeError        (* arithmetic on [None] *)
  | AttributeError.  (* attribute access on a [None] parent *)
Arguments Built {A} a.
Arguments TypeError {A}.
Arguments AttributeError {A}.

Definition init_bind {A B} (m : init_result A) (k : A → init_result B)
  : init_result B :=
  match m with
  | Built a => k a
  | TypeError => TypeError
  | AttributeError => AttributeError
  end.

Notation "'let*' x ':=' m 'in' k" := (init_bind m (fun x => k))
  (at level 10, x name, m at level 100, k at level 200).

Definition is_Built {A} (m : init_result A) : bool :=
  match m with
  | Built _ => true
  | _ => false
  end.

(** [a and b] on optional lengths *)
Definition py_and `{Dimension} (a b : option Z) : option Z :=
  if bool_of a then b else a.

Definition is_None (v : option Z) : bool :=
  match v with
  | None => true
  | Some _ => false
  end.

(** [a - b]; subtracting with [None] is a [TypeError] *)
Definition py_sub (a b : option Z) : init_result Z :=
  match a, b with
  | Some x, Some y => Built (x - y)
  | _, _ => TypeError
  end.

(** [parent.width] and [parent.height] *)
Definition parent_width (parent : option container) : init_result Z :=
  match parent with
  | Some p => Built (width (base p))
  | None => AttributeError
  end.

Definition parent_height (parent : option container) : init_result Z :=
  match parent with
  | Some p => Built (height_of p)
  | None => AttributeError
  end.

(** [ContainerBase.__init__(parent, left, width, right)].  [canvas] is the
    height of the canvas the backend hands out for the new container.
    Appending to [parent.children] and to the chain is part of the object
    graph (see [Tree] and [Chain] below). *)
Definition ContainerBase_init `{Dimension} (parent : option container)
    (left width right : option Z) (canvas : Z) : init_result ContainerBase :=
  let* left1 := match left with
          | Some l => Built l
          | None => if is_None (py_and right width) then Built 0
                    else py_sub right width
          end in
  let* width1 := match width with
           | Some w => Built w
           | None => match right with
                     | None => let* pw := parent_width parent in Built (pw - left1)
                     | Some r => Built (r - left1)
                     end
           end in
  Built (mkContainerBase left1 width1 (left1 + width1) 0 canvas).

(** [Container.__init__(parent, left, top, width, height, right, bottom)] *)
Definition Container_init `{Dimension} (parent : option container)
    (left top width height right bottom : option Z) (canvas : Z)
  : init_result Container :=
  let* b := ContainerBase_init parent left width right canvas in
  let* top1 := match top with
         | Some t => Built t
         | None => if is_None (py_and bottom height) then Built 0
                   else py_sub bottom height
         end in
  let* height1 := match height with
            | Some h => Built h
            | None => match bottom with
                      | None => let* ph := parent_height parent in Built (ph - top1)
                      | Some bt => Built (bt - top1)
                      end
            end in
  Built (mkContainer b top1 height1 (top1 + height1)).

(** [ExpandingContainer.__init__(parent, left, width, right, max_height)] *)
Definition ExpandingContainer_init `{Dimension} (parent : option container)
    (left width right max_height : option Z) (canvas : Z)
  : init_result ExpandingContainer :=
  let* b := ContainerBase_init parent left width right canvas in
  Built (mkExpandingContainer b max_height 0).

(** The rule of the specification for one axis, in its words: the three
    values resolve when at most one of the two edges is omitted given the
    size, or the size is omitted given both edges; a supplied triple must not
    contradict [far = near + size]. *)
Definition spec_resolvable (near size far : option Z) : bool :=
  match near, size, far with
  | Some n, Some s, Some f => f =? n + s
  | Some _, Some _, None => true
  | None, Some _, Some _ => true
  | Some _, None, Some _ => true
  | _, _, _ => false
  end.

(** ** Flowables *)

(** A [Flowable] object: the [resume] flag, the two style attributes read
    through [get_style], and whatever state its subclass keeps ([content]). *)
Record Flowable (B : Type) : Type := mkFlowable {
  resume : bool;
  space_above : Z;
  space_below : Z;
  content : B
}.
Arguments mkFlowable {B} _ _ _ _.
Arguments resume {B} _.
Arguments space_above {B} _.
Arguments space_below {B} _.
Arguments content {B} _.

Definition set_resume {B} (f : Flowable B) (v : bool) : Flowable B :=
  mkFlowable v (space_above f) (space_below f) (content f).

(** [Flowable.render(container)] is abstract in [Flowable] (it raises
    [NotImplementedError]); a subclass supplies it.  It may change the
    flowable and the container it is handed, and may raise. *)
Class FlowableClass (B : Type) := {
  render : Flowable B → container → Flowable B * container * outcome unit
}.

Section Flow.
Context `{Dimension} {B : Type} `{FlowableClass B}.

(** Lines 62-68 of [Flowable.flow]: from the call of [render] on.
    [start_offset] is the value the local of that name holds. *)
Definition flow_content (self : Flowable B) (c : container) (start_offset : Z)
  : Flowable B * container * outcome Z :=
  let '(self1, c1, r) := render self c in
  match r with
  | Raise e => (self1, c1, Raise e)
  | Return _ =>
      let self2 := set_resume self1 false in
      (* try: container.advance(space_below) except EndOfContainer: pass *)
      let '(c2, _) := advance c1 (space_below self2) in
      (self2, c2, Return (cursor c2 - start_offset))
  end.

(** [Flowable.flow(container)] *)
Definition Flowable_flow (self : Flowable B) (c : container)
  : Flowable B * container * outcome Z :=
  let start_offset := cursor c in
  if negb (resume self) then
    let self1 := set_resume self true in
    let '(c1, r) := advance c (space_above self1) in
    match r with
    | Raise e => (self1, c1, Raise e)
    | Return _ => flow_content self1 c1 start_offset
    end
  else flow_content self c start_offset.
End Flow.

(** ** The object store

    Containers, flowables and chains are shared mutable objects: a chain and
    a container tree refer to the same containers and flowables.  Objects are
    named by numbers; the store maps a name to the object's current state. *)

(** A [Chain] object.  [flowables] and [_containers] hold names of objects. *)
Record Chain : Type := mkChain {
  flowables : list nat;
  _containers : list nat;
  _container_index : nat;
  _flowable_index : nat
}.

(** Ghost record of what happened, in order; no code reads it.
    [Rendered c]: [ContainerBase.render] was entered on container [c].
    [Flowed ch k i o]: [Chain.render] of chain [ch] called [container.flow]
    on the [k]-th container of the chain with its [i]-th flowable, and
    [o] tells whether the call raised. *)
Inductive event : Type :=
  | Rendered (c : nat)
  | Flowed (ch k i : nat) (o : bool).

Record World (B : Type) : Type := mkWorld {
  containers : nat → container;
  flowable_objects : nat → Flowable B;
  chains : nat → Chain;
  trace : list event
}.
Arguments mkWorld {B} _ _ _ _.
Arguments containers {B} _ _.
Arguments flowable_objects {B} _ _.
Arguments chains {B} _ _.
Arguments trace {B} _.

Definition log {B} (e : event) (w : World B) : World B :=
  mkWorld (containers w) (flowable_objects w) (chains w) (trace w ++ [e]).

(** [self._container_index += 1] and [self._flowable_index += 1] on chain
    [self]. *)
Definition next_container {B} (self : nat) (w : World B) : World B :=
  let ch := chains w self in
  mkWorld (containers w) (flowable_objects w)
          (<[self := mkChain (flowables ch) (_containers ch)
                             (S (_container_index ch)) (_flowable_index ch)]>
             (chains w))
          (trace w).

Definition next_flowable {B} (self : nat) (w : World B) : World B :=
  let ch := chains w self in
  mkWorld (containers w) (flowable_objects w)
          (<[self := mkChain (flowables ch) (_containers ch)
                             (_container_index ch) (S (_flowable_index ch))]>
             (chains w))
          (trace w).

(** The container tree: [self.children] is filled by the constructors of the
    children and never changes while rendering, so the tree is the fixed
    shape that [render] walks.  A node names its container object, the
    flowables added to it directly ([self.flowables]) and the chain it
    feeds from ([self.chain]). *)
Inductive Tree : Type :=
  | Node (self : nat) (own : list nat) (chain : option nat)
         (children : list Tree).

Definition root (t : Tree) : nat :=
  match t with
  | Node self _ _ _ => self
  end.

Section Render.
Context `{Dimension} {B : Type} `{FlowableClass B}.

(** [ContainerBase.flow(flowable)]: [flowable.flow(self)] on the two
    objects named. *)
Definition ContainerBase_flow (self flowable : nat) (w : World B)
  : World B * outcome Z :=
  let '(f', c', r) :=
    Flowable_flow (flowable_objects w flowable) (containers w self) in
  (mkWorld (<[self := c']> (containers w))
           (<[flowable := f']> (flowable_objects w))
           (chains w) (trace w), r).

(** The inner loop of [Chain.render] into [container], the [k]-th of the
    chain.  [n] bounds the number of iterations; [Chain_render] passes the
    number of flowables left, which the loop cannot exceed. *)
Fixpoint flow_flowables (n : nat) (self k container : nat) (w : World B)
  : World B * outcome unit :=
  match n with
  | O => (w, Return tt)
  | S n' =>
      let ch := chains w self in
      (* while self._flowable_index < len(self.flowables) *)
      match flowables ch !! _flowable_index ch with
      | None => (w, Return tt)
      | Some flowable =>
          let '(w1, r) := ContainerBase_flow container flowable w in
          let w2 := log (Flowed self k (_flowable_index ch) (raised r)) w1 in
          match r with
          | Raise e => (w2, Raise e)
          | Return _ => flow_flowables n' self k container (next_flowable self w2)
          end
      end
  end.

Definition flowables_left (ch : Chain) : nat :=
  (length (flowables ch) - _flowable_index ch)%nat.

Definition containers_left (ch : Chain) : nat :=
  (length (_containers ch) - _container_index ch)%nat.

(** The outer loop of [Chain.render]; [n] bounds its iterations. *)
Fixpoint render_containers (n : nat) (self : nat) (w : World B)
  : World B * outcome unit :=
  match n with
  | O => (w, Return tt)
  | S n' =>
      let ch := chains w self in
      (* while self._container_index < len(self._containers) *)
      match _containers ch !! _container_index ch with
      | None => (w, Return tt)
      | Some container =>
          let w1 := next_container self w in
          let '(w2, r) :=
            flow_flowables (flowables_left (chains w1 self)) self
                           (_container_index ch) container w1 in
          match r with
          | Return _ => render_containers n' self w2
          | Raise _ =>
              (* except EndOfContainer: catches EndOfPage as well *)
              let ch2 := chains w2 self in
              if Z.of_nat (length (_containers ch2)) - 1
                 <? Z.of_nat (_container_index ch2)
              then (w2, Raise (EndOfPage self))
              else render_containers n' self w2
          end
      end
  end.

(** [Chain.render()] *)
Definition Chain_render (self : nat) (w : World B) : World B * outcome unit :=
  render_containers (containers_left (chains w self)) self w.

(** [for flowable in self.flowables: self.flow(flowable)]: nothing is
    caught here. *)
Fixpoint flow_own (self : nat) (own : list nat) (w : World B)
  : World B * outcome unit :=
  match own with
  | [] => (w, Return tt)
  | flowable :: rest =>
      let '(w1, r) := ContainerBase_flow self flowable w in
      match r with
      | Raise e => (w1, Raise e)
      | Return _ => flow_own self rest w1
      end
  end.

(** [if end_of_page is not None: raise end_of_page] *)
Definition reraise (w : World B) (end_of_page : option exn)
  : World B * outcome unit :=
  match end_of_page with
  | Some e => (w, Raise e)
  | None => (w, Return tt)
  end.

(** The loop over [self.children] of [ContainerBase.render], given the
    [render] method of a child: [Return eop] hands on the value of the
    local [end_of_page]; [Raise e] is an exception that left the loop. *)
Definition render_children (render : Tree → World B → World B * outcome unit)
  : list Tree → World B → option exn → World B * outcome (option exn) :=
  fix each (children : list Tree) (w : World B) (end_of_page : option exn) :=
    match children with
    | [] => (w, Return end_of_page)
    | child :: rest =>
        let '(w1, r) := render child w in
        match r with
        | Return _ => each rest w1 end_of_page
        | Raise e =>
            (* except EndOfPage as e: end_of_page = e *)
            if isinstance_EndOfPage e then each rest w1 (Some e)
            else (w1, Raise e)
        end
    end.

(** Lines 114-124 of [ContainerBase.render]: the container's own flowables,
    or else its chain, then the collected signal. *)
Definition render_own (self : nat) (own : list nat) (chain : option nat)
    (w : World B) (end_of_page : option exn) : World B * outcome unit :=
  match own with
  | _ :: _ =>
      let '(w1, r) := flow_own self own w in
      match r with
      | Raise e => (w1, Raise e)
      | Return _ => reraise w1 end_of_page
      end
  | [] =>
      match chain with
      | Some ch =>
          let '(w1, r) := Chain_render ch w in
          match r with
          | Return _ => reraise w1 end_of_page
          | Raise e =>
              if isinstance_EndOfPage e then reraise w1 (Some e)
              else (w1, Raise e)
          end
      | None => reraise w end_of_page
      end
  end.

(** [ContainerBase.render()] *)
Fixpoint ContainerBase_render (t : Tree) (w : World B)
  : World B * outcome unit :=
  match t with
  | Node self own chain children =>
      let w0 := log (Rendered self) w in
      let '(w1, r) := render_children ContainerBase_render children w0 None in
      match r with
      | Raise e => (w1, Raise e)
      | Return end_of_page => render_own self own chain w1 end_of_page
      end
  end.
End Render.

(** ** The document and its convergence loop *)

(** A [Document] object, with the part of the file system and of the backend
    that [render] touches: [cache] is what the cache file
    [filename + '.ptc'] holds ([None] when opening it fails with [IOError];
    a file that opens but does not unpickle makes [pickle.load] raise, which
    [load_cache] does not catch, and is not represented),
    [written] tells whether [backend_document.write] was called.  [passes]
    is a ghost count of the calls of [render_loop]. *)
Record Document (B : Type) : Type := mkDocument {
  number_of_pages : Z;
  page_references : gmap string Z;
  _previous_number_of_pages : Z;
  _previous_page_references : gmap string Z;
  pages : list Tree;
  objects : World B;
  cache : option (Z * gmap string Z);
  written : bool;
  passes : nat
}.
Arguments mkDocument {B} _ _ _ _ _ _ _ _ _.
Arguments number_of_pages {B} _.
Arguments page_references {B} _.
Arguments _previous_number_of_pages {B} _.
Arguments _previous_page_references {B} _.
Arguments pages {B} _.
Arguments objects {B} _.
Arguments cache {B} _.
Arguments written {B} _.
Arguments passes {B} _.

(** [Document.setup] and [Document.add_to_chain] raise
    [NotImplementedError] in [Document]; a subclass supplies them. *)
Class DocumentClass (B : Type) := {
  setup : Document B → Document B;
  add_to_chain : nat → Document B → Document B
}.

Section DocumentRender.
Context `{Dimension} {B : Type} `{FlowableClass B} `{DocumentClass B}.

(** [Document.load_cache(filename)] *)
Definition load_cache (d : Document B) : Document B :=
  match cache d with
  | Some (n, refs) =>
      mkDocument n refs n refs (pages d) (objects d) (cache d) (written d)
                 (passes d)
  | None =>
      mkDocument 0 ∅ (-1) ∅ (pages d) (objects d) (cache d) (written d)
                 (passes d)
  end.

(** [Document.save_cache(filename)] *)
Definition save_cache (d : Document B) : Document B :=
  mkDocument (number_of_pages d) (page_references d)
             (_previous_number_of_pages d) (_previous_page_references d)
             (pages d) (objects d)
             (Some (number_of_pages d, page_references d))
             (written d) (passes d).

(** [self.backend_document.write(filename)] *)
Definition write (d : Document B) : Document B :=
  mkDocument (number_of_pages d) (page_references d)
             (_previous_number_of_pages d) (_previous_page_references d)
             (pages d) (objects d) (cache d) true (passes d).

(** [Document.has_converged()] *)
Definition has_converged (d : Document B) : bool :=
  bool_decide (number_of_pages d = _previous_number_of_pages d) &&
  bool_decide (page_references d = _previous_page_references d).

(** [Page.render()]: [ContainerBase.render] on the page; the calls of
    [place] in between belong to the backend and raise nothing. *)
Definition Page_render (page : Tree) (w : World B) : World B * outcome unit :=
  ContainerBase_render page w.

Definition with_objects (d : Document B) (w : World B) : Document B :=
  mkDocument (number_of_pages d) (page_references d)
             (_previous_number_of_pages d) (_previous_page_references d)
             (pages d) w (cache d) (written d) (passes d).

(** The [while index < len(self.pages)] loop of [render_loop].
    [add_to_chain] may append pages for ever, so the loop runs on fuel:
    [None] means the fuel ran out. *)
Fixpoint render_pages (fuel index : nat) (d : Document B)
  : option (Document B * outcome unit) :=
  match pages d !! index with
  | None => Some (d, Return tt)
  | Some page =>
      match fuel with
      | O => None
      | S fuel' =>
          let '(w, r) := Page_render page (objects d) in
          let d1 := with_objects d w in
          match r with
          | Return _ => render_pages fuel' (S index) d1
          | Raise (EndOfPage ch) =>
              (* except EndOfPage as e: self.add_to_chain(e.args[0]) *)
              render_pages fuel' (S index) (add_to_chain ch d1)
          | Raise EndOfContainer => Some (d1, Raise EndOfContainer)
          end
      end
  end.

(** [self.pages = []] *)
Definition clear_pages (d : Document B) : Document B :=
  mkDocument (number_of_pages d) (page_references d)
             (_previous_number_of_pages d) (_previous_page_references d)
             [] (objects d) (cache d) (written d) (S (passes d)).

(** [Document.render_loop()] *)
Definition render_loop (fuel : nat) (d : Document B)
  : option (Document B * outcome Z) :=
  match render_pages fuel 0 (setup (clear_pages d)) with
  | None => None
  | Some (d1, Raise e) => Some (d1, Raise e)
  | Some (d1, Return _) => Some (d1, Return (Z.of_nat (length (pages d1))))
  end.

(** [self.number_of_pages = n] *)
Definition set_number_of_pages (d : Document B) (n : Z) : Document B :=
  mkDocument n (page_references d)
             (_previous_number_of_pages d) (_previous_page_references d)
             (pages d) (objects d) (cache d) (written d) (passes d).

(** [self._previous_number_of_pages = self.number_of_pages] and
    [self._previous_page_references = self.page_references.copy()] *)
Definition remember (d : Document B) : Document B :=
  mkDocument (number_of_pages d) (page_references d)
             (number_of_pages d) (page_references d)
             (pages d) (objects d) (cache d) (written d) (passes d).

(** The [while not self.has_converged()] loop of [Document.render].  The
    loop has no bound of its own; [None] means the fuel ran out. *)
Fixpoint converge (fuel : nat) (d : Document B)
  : option (Document B * outcome unit) :=
  if has_converged d then Some (d, Return tt)
  else
    match fuel with
    | O => None
    | S fuel' =>
        match render_loop fuel' (remember d) with
        | None => None
        | Some (d1, Raise e) => Some (d1, Raise e)
        | Some (d1, Return n) => converge fuel' (set_number_of_pages d1 n)
        end
    end.

(** [Document.render(filename)] *)
Definition Document_render (fuel : nat) (d : Document B)
  : option (Document B * outcome unit) :=
  match render_loop fuel (load_cache d) with
  | None => None
  | Some (d1, Raise e) => Some (d1, Raise e)
  | Some (d1, Return n) =>
      match converge fuel (set_number_of_pages d1 n) with
      | None => None
      | Some (d2, Raise e) => Some (d2, Raise e)
      | Some (d2, Return _) => Some (write (save_cache d2), Return tt)
      end
  end.
End DocumentRender.

(** ** Concrete instances used in the examples *)

(** A length class none of whose objects is false (a class that defines
    neither [__bool__] nor [__len__]). *)
Definition object_truth : Dimension := {| truthy := fun _ => true |}.

(** Plain Python numbers: zero is false. *)
Definition number_truth : Dimension := {| truthy := fun z => negb (z =? 0) |}.

(** A flowable subclass for the examples: its content is one block of the
    height stored in [content], and [render] is [container.advance] by that
    height. *)
Definition Block (D : Dimension) : FlowableClass Z :=
  {| render := fun self c =>
                 let '(c', r) := @advance D c (content self) in (self, c', r) |}.

(** A bounded container as [Container.__init__] leaves it, all six lengths
    given: at the parent's origin, [w] wide and [h] high. *)
Definition box (w h : Z) : container :=
  Bounded (mkContainer (mkContainerBase 0 w w 0 0) 0 h h).

(** An expanding container as [ExpandingContainer.__init__] leaves it. *)
Definition expanding_box (w : Z) (cap : option Z) : container :=
  Expanding (mkExpandingContainer (mkContainerBase 0 w w 0 0) cap 0).

(** When the constructor gets through one axis, a parent being there: always,
    but for a far edge whose truth value is false, given alone; then
    [(right and width)] is that edge, not [None], and [right - width]
    subtracts [None]. *)
Definition axis_built `{Dimension} (near size far : option Z) : bool :=
  negb (is_None near && is_None size &&
        match far with
        | Some f => negb (truthy f)
        | None => false
        end).

(** The near edge the constructor settles on. *)
Definition near_edge (near size far : option Z) : Z :=
  match near with
  | Some n => n
  | None => match far, size with
            | Some f, Some s => f - s
            | _, _ => 0
            end
  end.

(** The size the constructor settles on; [extent] is the parent's. *)
Definition size_along (extent : Z) (near size far : option Z) : Z :=
  match size with
  | Some s => s
  | None => match far with
            | Some f => f - near_edge near size far
            | None => extent - near_edge near size far
            end
  end.

(** A store for the examples: every container is a fresh box of height 10,
    every flowable a fresh block of height 6 without space around it, and
    every chain feeds the flowables 0, 1, 2 into the containers 0, 1. *)
Definition example_world : World Z :=
  mkWorld (fun _ => box 50 10) (fun _ => mkFlowable false 0 0 6)
          (fun _ => mkChain [0; 1; 2]%nat [0; 1]%nat 0 0) [].

(** Every child rendered in turn, whatever each call ends in, each in the
    store its elder sibling left: the store after the last child and what
    each call ended in.  This is the run that the loop over [self.children]
    is compared with. *)
Fixpoint children_outcomes {B} (render : Tree → World B → World B * outcome unit)
    (children : list Tree) (w : World B) : World B * list (outcome unit) :=
  match children with
  | [] => (w, [])
  | child :: rest =>
      let '(w1, r) := render child w in
      let '(w2, rs) := children_outcomes render rest w1 in
      (w2, r :: rs)
  end.

(** The value of the local [end_of_page] after the outcomes [rs]: the last
    [EndOfPage] among them, if any. *)
Fixpoint collect_end_of_page (rs : list (outcome unit)) (end_of_page : option exn)
  : option exn :=
  match rs with
  | [] => end_of_page
  | Return _ :: rest => collect_end_of_page rest end_of_page
  | Raise e :: rest =>
      collect_end_of_page rest
        (if isinstance_EndOfPage e then Some e else end_of_page)
  end.

(** Container 9 with two children: container 3 holds the flowables 0 and 1
    itself, container 4 the flowable 2. *)
Definition overflowing_first_child : Tree :=
  Node 9 [] None [Node 3 [0; 1]%nat None []; Node 4 [2%nat] None []].

(** Container 9 with two children: container 0 feeds from chain 0,
    container 4 holds the flowable 3 itself. *)
Definition chained_first_child : Tree :=
  Node 9 [] None [Node 0 [] (Some 0%nat) []; Node 4 [3%nat] None []].

(** [w'] has the trace of [w] and more. *)
Definition extends {B} (w w' : World B) : Prop :=
  ∃ new, trace w' = trace w ++ new.

Section DocumentRuns.
Context `{Dimension} {B : Type} `{FlowableClass B} `{DocumentClass B}.

(** [repasses k d d']: starting the [while not self.has_converged()] loop in
    [d], the test fails [k] times, each of the [k] passes it triggers ends
    normally, and the test then holds in [d']. *)
Inductive repasses : nat → Document B → Document B → Prop :=
  | repasses_done (d : Document B) :
      has_converged d = true → repasses 0 d d
  | repasses_again (k fuel : nat) (d d1 d' : Document B) (n : Z) :
      has_converged d = false →
      render_loop fuel (remember d) = Some (d1, Return n) →
      repasses k (set_number_of_pages d1 n) d' →
      repasses (S k) d d'.
End DocumentRuns.

(** A page without content. *)
Definition empty_page : Tree := Node 0 [] None [].

(** A document class for the examples: [setup] lays out one page more than
    the page count it finds in [number_of_pages], up to twelve pages (as a
    document does whose front matter grows with the page numbers it prints);
    the pages are empty, so [add_to_chain] is never called. *)
Definition growing : DocumentClass Z :=
  {| setup := fun d =>
       mkDocument (number_of_pages d) (page_references d)
                  (_previous_number_of_pages d) (_previous_page_references d)
                  (replicate (Z.to_nat (Z.min (number_of_pages d + 1) 12))
                             empty_page)
                  (objects d) (cache d) (written d) (passes d);
     add_to_chain := fun _ d => d |}.

(** A document before [render], no cache file at hand. *)
Definition cold_document : Document Z :=
  mkDocument 0 ∅ 0 ∅ [] example_world None false 0.

(** The same document class, but laying out at most three pages. *)
Definition growing3 : DocumentClass Z :=
  {| setup := fun d =>
       mkDocument (number_of_pages d) (page_references d)
                  (_previous_number_of_pages d) (_previous_page_references d)
                  (replicate (Z.to_nat (Z.min (number_of_pages d + 1) 3))
                             empty_page)
                  (objects d) (cache d) (written d) (passes d);
     add_to_chain := fun _ d => d |}.

(** ** Further operations *)

(** [Chain.add_container(container)]: [self._containers.append(container)] *)
Definition Chain_add_container {B} (self container : nat) (w : World B)
  : World B :=
  let ch := chains w self in
  mkWorld (containers w) (flowable_objects w)
          (<[self := mkChain (flowables ch) (_containers ch ++ [container])
                             (_container_index ch) (_flowable_index ch)]>
             (chains w))
          (trace w).

(** The order in which a chain that stands at its [k]-th container and its
    [i]-th flowable may flow: the flowable [i] into the container [k], and
    then the next flowable into the same container when the flow returned,
    the same flowable into the next container when it raised. *)
Fixpoint in_turn (self k i : nat) (evs : list event) : bool :=
  match evs with
  | [] => true
  | Flowed ch k' i' o :: rest =>
      (ch =? self)%nat && (k' =? k)%nat && (i' =? i)%nat &&
      in_turn self (if o then S k else k) (if o then i else S i) rest
  | Rendered _ :: _ => false
  end.

(** Where such a chain stands after the flows [evs]. *)
Fixpoint turn_after (k i : nat) (evs : list event) : nat * nat :=
  match evs with
  | [] => (k, i)
  | Flowed _ _ _ o :: rest =>
      turn_after (if o then S k else k) (if o then i else S i) rest
  | Rendered _ :: rest => turn_after k i rest
  end.

(** The sheet a page is laid out on ([pyte/paper.py]): its two lengths. *)
Record Paper : Type := mkPaper {
  paper_width : Z;
  paper_height : Z
}.

(** The two orientation constants of [pyte/document.py]; [Page.__init__]
    tests [self.orientation is PORTRAIT] and takes anything else as
    landscape. *)
Inductive Orientation : Type :=
  | PORTRAIT
  | LANDSCAPE.

(** [Page.__init__(document, paper, orientation)]: the geometry it sets up,
    [super().__init__(None, 0*PT, 0*PT, width, height)]. *)
Definition Page_init `{Dimension} (paper : Paper) (orientation : Orientation)
    (canvas : Z) : init_result Container :=
  let '(width, height) :=
    match orientation with
    | PORTRAIT => (paper_width paper, paper_height paper)
    | LANDSCAPE => (paper_height paper, paper_width paper)
    end in
  Container_init None (Some 0) (Some 0) (Some width) (Some height) None None
                 canvas.

(** [Document.unique_id]: the property adds one to [self._unique_id] and
    returns it.  The state is the value of that attribute, which nothing
    else in [Document] writes after [__init__] has set it to 0. *)
Definition unique_id (_unique_id : Z) : Z * Z :=
  (_unique_id + 1, _unique_id + 1).

(** [FootnoteContainer.next_number], on the attribute
    [self._footnote_number] that [__init__] sets to 0. *)
Definition next_number (_footnote_number : Z) : Z * Z :=
  (_footnote_number + 1, _footnote_number + 1).

(** A property read [n] times in a row: the state after the last read and
    the values read, in order. *)
Fixpoint read_times (read : Z → Z * Z) (n : nat) (state : Z) : Z * list Z :=
  match n with
  | O => (state, [])
  | S n' =>
      let '(state1, v) := read state in
      let '(state2, vs) := read_times read n' state1 in
      (state2, v :: vs)
  end.

(** A method of the document class that leaves alone what the convergence
    test compares against. *)
Definition keeps_previous {B} (f : Document B → Document B) : Prop :=
  ∀ d, _previous_number_of_pages (f d) = _previous_number_of_pages d ∧
       _previous_page_references (f d) = _previous_page_references d.

(** A method of the document class that touches neither the cache file
    nor the output. *)
Definition keeps_output {B} (f : Document B → Document B) : Prop :=
  ∀ d, cache (f d) = cache d ∧ written (f d) = written d.

(** A document class for the examples whose single page holds, in its first
    child, more than fits. *)
Definition overflowing : DocumentClass Z :=
  {| setup := fun d =>
       mkDocument (number_of_pages d) (page_references d)
                  (_previous_number_of_pages d) (_previous_page_references d)
                  [overflowing_first_child]
                  (objects d) (cache d) (written d) (passes d);
     add_to_chain := fun _ d => d |}.

(** ** The arithmetic of lengths

    [advance] adds the height it is handed to the offset and compares the
    result with a height or a cap.  [Flowable.flow] hands it Python floats
    ([float(self.get_style(...))]), so the offset is a sum that rounds at
    every addition.  The definitions below are [advance] over any
    arithmetic: [exact] is that of the integers used above, [binary64] that
    of Python's floats. *)
Class Arithmetic (N : Type) := {
  num_zero : N;
  num_add : N → N → N;
  num_gt : N → N → bool;     (* [x > y] *)
  num_truth : N → bool       (* the truth value of a length *)
}.

Definition exact (D : Dimension) : Arithmetic Z :=
  {| num_zero := 0;
     num_add := Z.add;
     num_gt := fun x y => y <? x;
     num_truth := truthy |}.

Definition binary64 : Arithmetic float :=
  {| num_zero := 0%float;
     num_add := PrimFloat.add;
     num_gt := fun x y => PrimFloat.ltb y x;
     num_truth := fun x => negb (PrimFloat.eqb x 0%float) |}.

(** What [advance] reads and writes of a [Container] and of an
    [ExpandingContainer]. *)
Record BoundedState (N : Type) : Type := mkBoundedState {
  bs_height : N;
  bs_offset : N
}.
Arguments mkBoundedState {N} _ _.
Arguments bs_height {N} _.
Arguments bs_offset {N} _.

Record ExpandingState (N : Type) : Type := mkExpandingState {
  es_max_height : option N;
  es_height : N;
  es_offset : N
}.
Arguments mkExpandingState {N} _ _ _.
Arguments es_max_height {N} _.
Arguments es_height {N} _.
Arguments es_offset {N} _.

(** [Container.advance] *)
Definition Container_advance_in {N} `{Arithmetic N} (c : BoundedState N) (h : N)
  : BoundedState N * outcome unit :=
  let c' := mkBoundedState (bs_height c) (num_add (bs_offset c) h) in
  if num_gt (bs_offset c') (bs_height c')
  then (c', Raise EndOfContainer)
  else (c', Return tt).

(** [ExpandingContainer.advance], with [expand] *)
Definition ExpandingContainer_advance_in {N} `{Arithmetic N}
    (c : ExpandingState N) (h : N) : ExpandingState N * outcome unit :=
  let c' := mkExpandingState (es_max_height c) (es_height c)
                             (num_add (es_offset c) h) in
  if match es_max_height c' with
     | Some m => num_truth m && num_gt (es_offset c') m
     | None => false
     end
  then (c', Raise EndOfContainer)
  else (mkExpandingState (es_max_height c') (num_add (es_height c') h)
                         (es_offset c'), Return tt).

(** A caller that issues [advance(h1)], [advance(h2)], ... on one container
    and catches whatever each call raises. *)
Fixpoint calls {St N} (advance : St → N → St * outcome unit) (c : St)
    (hs : list N) : St * list (outcome unit) :=
  match hs with
  | [] => (c, [])
  | h :: hs' =>
      let '(c1, r) := advance c h in
      let '(c2, rs) := calls advance c1 hs' in
      (c2, r :: rs)
  end.

(** The sum of [hs] as the code accumulates it: from zero, one addition
    after the other, left to right. *)
Definition accumulate {N} `{Arithmetic N} (hs : list N) : N :=
  fold_left num_add hs num_zero.

(** The integer model above seen through these states. *)
Definition bounded_state (b : Container) : BoundedState Z :=
  mkBoundedState (height b) (_flowable_offset (c_base b)).

Definition expanding_state (e : ExpandingContainer) : ExpandingState Z :=
  mkExpandingState (max_height e) (e_height e) (_flowable_offset (e_base e)).

(** The exact value of a finite binary64 number, in units of [2 ^ -1074]
    (an integer for every finite number). *)
Definition exact_value (x : float) : Z :=
  match Prim2SF x with
  | S754_finite s m e => (if s then -1 else 1) * Z.pos m * 2 ^ (e + 1074)
  | _ => 0
  end.

(** The binary64 number closest to 0.7, and ten advances by it. *)
Definition seven_tenths : float := 0x1.6666666666666p-1%float.

Definition ten_advances : list float := replicate 10 seven_tenths.

(** [if end_of_page is not None: raise end_of_page], the outcome alone. *)
Definition raise_if (end_of_page : option exn) : outcome unit :=
  match end_of_page with
  | Some e => Raise e
  | None => Return tt
  end.

(** * Properties *)

(** ** [advance] *)

Lemma total_app (xs ys : list Z) : total (xs ++ ys) = total xs + total ys.
Proof.
  unfold total. induction xs as [|x xs IH]; simpl; [lia|]. rewrite IH. lia.
Qed.

Lemma total_take_S (hs : list Z) (n : nat) (h : Z) :
  hs !! n = Some h → total (take (S n) hs) = total (take n hs) + h.
Proof.
  intros Hn. rewrite (take_S_r _ _ _ Hn), total_app. unfold total. simpl. lia.
Qed.

Section Advance.
Context `{Dimension}.

Lemma advance_offset (c : container) (h : Z) :
  offset (advance c h).1 = offset c + h.
Proof.
  destruct c as [b|e]; unfold advance, Container_advance,
    ExpandingContainer_advance; simpl.
  - destruct (_ <? _); reflexivity.
  - destruct (_ && _); reflexivity.
Qed.

Lemma advance_canvas (c : container) (h : Z) :
  canvas_height (base (advance c h).1) = canvas_height (base c).
Proof.
  destruct c as [b|e]; unfold advance, Container_advance,
    ExpandingContainer_advance; simpl.
  - destruct (_ <? _); reflexivity.
  - destruct (_ && _); reflexivity.
Qed.

(** What a bounded container does on [advance]: the offset moves whatever
    the outcome, the height stays, and the call raises exactly when the new
    offset is beyond the height. *)
Lemma advance_bounded (b : Container) (h : Z) :
  ∃ b', (advance (Bounded b) h).1 = Bounded b' ∧
        height b' = height b ∧
        _flowable_offset (c_base b') = _flowable_offset (c_base b) + h ∧
        (advance (Bounded b) h).2 =
          if height b <? _flowable_offset (c_base b) + h
          then Raise EndOfContainer else Return tt.
Proof.
  unfold advance, Container_advance. simpl.
  destruct (height b <? _flowable_offset (c_base b) + h);
    eexists; simpl; eauto.
Qed.

Lemma advance_calls_app (c : container) (hs1 hs2 : list Z) :
  advance_calls c (hs1 ++ hs2) =
    let '(c1, rs1) := advance_calls c hs1 in
    let '(c2, rs2) := advance_calls c1 hs2 in
    (c2, rs1 ++ rs2).
Proof.
  revert c. induction hs1 as [|h hs1 IH]; intros c; simpl.
  - destruct (advance_calls c hs2); reflexivity.
  - destruct (advance c h) as [c1 r]. rewrite IH.
    destruct (advance_calls c1 hs1) as [c2 rs1].
    destruct (advance_calls c2 hs2); reflexivity.
Qed.

Lemma advance_calls_length (c : container) (hs : list Z) :
  length (advance_calls c hs).2 = length hs.
Proof.
  revert c. induction hs as [|h hs IH]; intros c; simpl; [done|].
  destruct (advance c h) as [c1 r]. specialize (IH c1).
  destruct (advance_calls c1 hs). simpl in *. by rewrite IH.
Qed.

(** The offset is the exact sum of everything advanced, failed calls
    included. *)
Lemma advance_calls_offset (c : container) (hs : list Z) :
  offset (advance_calls c hs).1 = offset c + total hs.
Proof.
  revert c. induction hs as [|h hs IH]; intros c; simpl.
  - unfold total; simpl; lia.
  - pose proof (advance_offset c h) as Ho.
    destruct (advance c h) as [c1 r]. specialize (IH c1).
    destruct (advance_calls c1 hs). simpl in *.
    rewrite IH, Ho. unfold total. simpl. lia.
Qed.

(** The [n]-th call of a sequence is the call made on the container that
    the first [n] calls left. *)
Lemma advance_calls_lookup (c : container) (hs : list Z) (n : nat) (h : Z) :
  hs !! n = Some h →
  (advance_calls c hs).2 !! n =
    Some (advance (advance_calls c (take n hs)).1 h).2.
Proof.
  intros Hn.
  rewrite <- (take_drop n hs) at 1. rewrite advance_calls_app.
  pose proof (advance_calls_length c (take n hs)) as Hl.
  destruct (advance_calls c (take n hs)) as [c1 rs1]. simpl in *.
  rewrite (drop_S _ _ _ Hn). simpl.
  destruct (advance c1 h) as [c2 r].
  destruct (advance_calls c2 (drop (S n) hs)) as [c3 rs2]. simpl.
  assert (length rs1 = n) as Hn'.
  { rewrite Hl. apply length_take_le. apply lookup_lt_Some in Hn. lia. }
  rewrite lookup_app_r by lia. by replace (n - length rs1)%nat with O by lia.
Qed.

Lemma advance_calls_bounded (b : Container) (hs : list Z) :
  ∃ b', (advance_calls (Bounded b) hs).1 = Bounded b' ∧
        height b' = height b.
Proof.
  revert b. induction hs as [|h hs IH]; intros b; cbn [advance_calls];
    [eauto|].
  destruct (advance_bounded b h) as (b1 & E1 & Hh & _ & _).
  destruct (advance (Bounded b) h) as [c1 r]. simpl in E1. subst c1.
  destruct (IH b1) as (b2 & E2 & Hh2).
  destruct (advance_calls (Bounded b1) hs). simpl in *.
  exists b2. split; [done | congruence].
Qed.

(** At every call of a sequence on a bounded container: the call raises
    exactly when the running sum exceeds what was left of the height. *)
Lemma bounded_call_raises (b : Container) (hs : list Z) (n : nat) :
  (n < length hs)%nat →
  (advance_calls (Bounded b) hs).2 !! n = Some (Raise EndOfContainer) ↔
  height b < _flowable_offset (c_base b) + total (take (S n) hs).
Proof.
  intros Hn. destruct (lookup_lt_is_Some_2 hs n Hn) as [h Hh].
  rewrite (advance_calls_lookup _ _ _ _ Hh), (total_take_S _ _ _ Hh).
  destruct (advance_calls_bounded b (take n hs)) as (b1 & E1 & Hh1).
  pose proof (advance_calls_offset (Bounded b) (take n hs)) as Ho.
  rewrite E1 in Ho |- *. unfold offset in Ho. simpl in Ho.
  destruct (advance_bounded b1 h) as (b2 & _ & _ & _ & Hr).
  rewrite Hr, Ho, Hh1.
  destruct (Z.ltb_spec (height b)
              (_flowable_offset (c_base b) + total (take n hs) + h)).
  - split; [intros _; lia | done].
  - split; [intros [=] | intros; lia].
Qed.
End Advance.

(** ** [advance] in any arithmetic *)

Section AnyArithmetic.
Context {N : Type} `{Arithmetic N}.

Lemma calls_app {St} (adv : St → N → St * outcome unit) (c : St)
    (hs1 hs2 : list N) :
  calls adv c (hs1 ++ hs2) =
    let '(c1, rs1) := calls adv c hs1 in
    let '(c2, rs2) := calls adv c1 hs2 in
    (c2, rs1 ++ rs2).
Proof.
  revert c. induction hs1 as [|h hs1 IH]; intros c; cbn [calls app].
  - destruct (calls adv c hs2); reflexivity.
  - destruct (adv c h) as [c1 r]. rewrite IH.
    destruct (calls adv c1 hs1) as [c2 rs1].
    destruct (calls adv c2 hs2); reflexivity.
Qed.

Lemma calls_length {St} (adv : St → N → St * outcome unit) (c : St)
    (hs : list N) :
  length (calls adv c hs).2 = length hs.
Proof.
  revert c. induction hs as [|h hs IH]; intros c; cbn [calls]; [done|].
  destruct (adv c h) as [c1 r]. specialize (IH c1).
  destruct (calls adv c1 hs). cbn in *. by rewrite IH.
Qed.

(** The [n]-th call of a sequence is the call made on the state that the
    first [n] calls left. *)
Lemma calls_lookup {St} (adv : St → N → St * outcome unit) (c : St)
    (hs : list N) (n : nat) (h : N) :
  hs !! n = Some h →
  (calls adv c hs).2 !! n = Some (adv (calls adv c (take n hs)).1 h).2.
Proof.
  intros Hn.
  rewrite <- (take_drop n hs) at 1. rewrite calls_app.
  pose proof (calls_length adv c (take n hs)) as Hl.
  destruct (calls adv c (take n hs)) as [c1 rs1]. cbn [fst snd] in *.
  rewrite (drop_S _ _ _ Hn). cbn [calls].
  destruct (adv c1 h) as [c2 r].
  destruct (calls adv c2 (drop (S n) hs)) as [c3 rs2]. cbn [fst snd].
  assert (length rs1 = n) as Hn'.
  { rewrite Hl. apply length_take_le. apply lookup_lt_Some in Hn. lia. }
  rewrite lookup_app_r by lia. by replace (n - length rs1)%nat with O by lia.
Qed.

Lemma accumulate_take_S (hs : list N) (n : nat) (h : N) (a : N) :
  hs !! n = Some h →
  fold_left num_add (take (S n) hs) a
    = num_add (fold_left num_add (take n hs) a) h.
Proof.
  intros Hn. by rewrite (take_S_r _ _ _ Hn), fold_left_app.
Qed.

Lemma Container_advance_in_outcome (c : BoundedState N) (h : N) :
  (Container_advance_in c h).2 =
    if num_gt (num_add (bs_offset c) h) (bs_height c)
    then Raise EndOfContainer else Return tt.
Proof.
  unfold Container_advance_in. cbn [bs_offset bs_height].
  by destruct (num_gt _ _).
Qed.

(** After any calls the offset of a bounded container is what the additions
    of the code have accumulated, failed calls included; the height is as it
    was. *)
Lemma bounded_calls_state (c : BoundedState N) (hs : list N) :
  bs_offset (calls Container_advance_in c hs).1
    = fold_left num_add hs (bs_offset c) ∧
  bs_height (calls Container_advance_in c hs).1 = bs_height c.
Proof.
  revert c. induction hs as [|h hs IH]; intros c; cbn [calls]; [done|].
  assert (bs_offset (Container_advance_in c h).1 = num_add (bs_offset c) h ∧
          bs_height (Container_advance_in c h).1 = bs_height c) as [Ho Hh].
  { unfold Container_advance_in. cbn. by destruct (num_gt _ _). }
  destruct (Container_advance_in c h) as [c1 r]. cbn [fst] in *.
  destruct (IH c1) as [IHo IHh].
  destruct (calls Container_advance_in c1 hs). cbn [fst] in *.
  rewrite IHo, IHh, Ho, Hh. done.
Qed.

(** C3, amended.  For a bounded [Container] of height [top], fresh from its
    constructor (offset zero), and calls [advance(h1)], [advance(h2)], ...
    whose exceptions the caller catches, in any arithmetic and so in
    binary64: the call number [n] raises [EndOfContainer] exactly when the
    sum as the code accumulates it (from zero, [h1], ..., [hn] added one
    after the other, each addition rounded as the arithmetic rounds) is
    greater than [top]; so the first call that raises is the first at which
    that accumulated sum exceeds [top], and none raises earlier.  Just
    before call [n] the offset is the accumulated sum of the heights
    advanced before it. *)
Theorem C3_overflow_at_accumulated_excess (top : N) (hs : list N) (n : nat) :
  (n < length hs)%nat →
  (calls Container_advance_in (mkBoundedState top num_zero) hs).2 !! n
    = Some (if num_gt (accumulate (take (S n) hs)) top
            then Raise EndOfContainer else Return tt) ∧
  bs_offset (calls Container_advance_in (mkBoundedState top num_zero)
                   (take n hs)).1
    = accumulate (take n hs) ∧
  ((∀ j, (j < n)%nat → num_gt (accumulate (take (S j) hs)) top = false) →
   ∀ j, (j < n)%nat →
        (calls Container_advance_in (mkBoundedState top num_zero) hs).2 !! j
          = Some (Return tt)).
Proof.
  intros Hn.
  assert (∀ j, (j < length hs)%nat →
            (calls Container_advance_in (mkBoundedState top num_zero) hs).2
              !! j
            = Some (if num_gt (accumulate (take (S j) hs)) top
                    then Raise EndOfContainer else Return tt)) as Hcall.
  { intros j Hj. destruct (lookup_lt_is_Some_2 hs j Hj) as [h Hh].
    rewrite (calls_lookup _ _ _ _ _ Hh). unfold accumulate.
    rewrite (accumulate_take_S _ _ _ _ Hh).
    destruct (bounded_calls_state (mkBoundedState top num_zero) (take j hs))
      as [Ho Ht]. cbn [bs_offset bs_height] in Ho, Ht.
    by rewrite Container_advance_in_outcome, Ho, Ht. }
  split; [by apply Hcall|]. split.
  - by destruct (bounded_calls_state (mkBoundedState top num_zero)
                   (take n hs)) as [-> _].
  - intros Hbelow j Hj. rewrite Hcall by lia. by rewrite Hbelow.
Qed.
End AnyArithmetic.

(** The integer model of [Container.advance] is this one in the exact
    arithmetic. *)
Lemma Container_advance_exact `{Dimension} (b : Container) (h : Z) :
  bounded_state (Container_advance b h).1
    = (@Container_advance_in Z (exact _) (bounded_state b) h).1 ∧
  (Container_advance b h).2
    = (@Container_advance_in Z (exact _) (bounded_state b) h).2.
Proof.
  unfold Container_advance, Container_advance_in, bounded_state. cbn.
  by destruct (_ <? _).
Qed.

(** C3, as stated, fails in the arithmetic of the code: ten advances by the
    binary64 number closest to 0.7 into a container of height 7.  The exact
    sum of the ten heights does not exceed 7, yet the tenth call raises, for
    the accumulated offset is 7.0000000000000009; and before that call the
    offset, nine additions long, is not the exact sum of the nine heights. *)
Lemma C3_counterexample :
  (10 * exact_value seven_tenths <=? exact_value 7%float) = true ∧
  (calls (@Container_advance_in float binary64)
         (mkBoundedState 7%float 0%float) ten_advances).2 !! 9%nat
    = Some (Raise EndOfContainer) ∧
  (exact_value
     (bs_offset (calls (@Container_advance_in float binary64)
                       (mkBoundedState 7%float 0%float)
                       (take 9 ten_advances)).1)
   =? 9 * exact_value seven_tenths) = false.
Proof. repeat split; vm_compute; reflexivity. Qed.

Lemma C3_witness :
  (calls (@Container_advance_in float binary64)
         (mkBoundedState 7%float 0%float) ten_advances).2 !! 9%nat
    = Some (Raise EndOfContainer) ∧
  (calls (@Container_advance_in float binary64)
         (mkBoundedState 7%float 0%float) ten_advances).2 !! 8%nat
    = Some (Return tt).
Proof.
  destruct (@C3_overflow_at_accumulated_excess float binary64 7%float
              ten_advances 9%nat ltac:(vm_compute; lia)) as (Hr & _ & Hfirst).
  split; [exact Hr|].
  apply Hfirst; [|lia].
  intros j Hj. do 9 (destruct j as [|j]; [vm_compute; reflexivity|]). lia.
Defined.

(** C9.  When [advance(h)] on a bounded [Container] raises
    [EndOfContainer], the offset is not rolled back: after the failed call
    it is the previous offset plus [h], strictly greater than the container's
    height (which is unchanged), and a later [advance(h2)] is judged against
    that offset. *)
Theorem C9_failed_advance_keeps_offset `{Dimension} (b : Container) (h : Z) :
  (advance (Bounded b) h).2 = Raise EndOfContainer →
  ∃ b', (advance (Bounded b) h).1 = Bounded b' ∧
        _flowable_offset (c_base b') = _flowable_offset (c_base b) + h ∧
        height b' = height b ∧
        height b' < _flowable_offset (c_base b') ∧
        ∀ h2, (advance (Bounded b') h2).2 =
                if height b <? _flowable_offset (c_base b) + h + h2
                then Raise EndOfContainer else Return tt.
Proof.
  intros Hr. destruct (advance_bounded b h) as (b' & E & Hh & Ho & Hr').
  exists b'. rewrite Hr in Hr'.
  destruct (Z.ltb_spec (height b) (_flowable_offset (c_base b) + h));
    [|discriminate].
  repeat split; [done | done | done | lia |].
  intros h2. destruct (advance_bounded b' h2) as (_ & _ & _ & _ & Hr2).
  by rewrite Hr2, Hh, Ho.
Qed.

Lemma C9_witness :
  offset (@advance object_truth (box 50 10) 11).1 = 11 ∧
  (@advance object_truth (@advance object_truth (box 50 10) 11).1 0).2
    = Raise EndOfContainer.
Proof.
  destruct (@C9_failed_advance_keeps_offset object_truth
              (mkContainer (mkContainerBase 0 50 50 0 0) 0 10 10) 11 eq_refl)
    as (b' & E & Ho & _ & _ & Hnext).
  unfold box. rewrite E. split; [exact Ho | exact (Hnext 0)].
Defined.

Section Expanding.
Context `{Dimension}.

(** What an expanding container does on [advance]. *)
Lemma advance_expanding (e : ExpandingContainer) (h : Z) :
  ∃ e', (advance (Expanding e) h).1 = Expanding e' ∧
        max_height e' = max_height e ∧
        _flowable_offset (e_base e') = _flowable_offset (e_base e) + h ∧
        (advance (Expanding e) h).2 =
          (if bool_of (max_height e) &&
              match max_height e with
              | Some m => m <? _flowable_offset (e_base e) + h
              | None => false
              end
           then Raise EndOfContainer else Return tt) ∧
        e_height e' =
          match (advance (Expanding e) h).2 with
          | Return _ => e_height e + h
          | Raise _ => e_height e
          end.
Proof.
  unfold advance, ExpandingContainer_advance. simpl.
  destruct (bool_of (max_height e) && _); eexists; simpl; eauto 10.
Qed.

Lemma advance_calls_expanding (e : ExpandingContainer) (hs : list Z) :
  ∃ e', (advance_calls (Expanding e) hs).1 = Expanding e' ∧
        max_height e' = max_height e.
Proof.
  revert e. induction hs as [|h hs IH]; intros e; cbn [advance_calls];
    [eauto|].
  destruct (advance_expanding e h) as (e1 & E1 & Hm & _).
  destruct (advance (Expanding e) h) as [c1 r]. simpl in E1. subst c1.
  destruct (IH e1) as (e2 & E2 & Hm2).
  destruct (advance_calls (Expanding e1) hs). simpl in *.
  exists e2. split; [done | congruence].
Qed.

(** With a cap the truth test accepts, every call of a sequence raises
    exactly when the running sum exceeds the cap. *)
Lemma expanding_call_raises (e : ExpandingContainer) (M : Z) (hs : list Z)
    (n : nat) (h : Z) :
  max_height e = Some M → truthy M = true → hs !! n = Some h →
  (advance_calls (Expanding e) hs).2 !! n =
    Some (if M <? _flowable_offset (e_base e) + total (take (S n) hs)
          then Raise EndOfContainer else Return tt).
Proof.
  intros HM Ht Hh.
  rewrite (advance_calls_lookup _ _ _ _ Hh), (total_take_S _ _ _ Hh).
  destruct (advance_calls_expanding e (take n hs)) as (e1 & E1 & Hm1).
  pose proof (advance_calls_offset (Expanding e) (take n hs)) as Ho.
  rewrite E1 in Ho |- *. unfold offset in Ho. simpl in Ho.
  destruct (advance_expanding e1 h) as (_ & _ & _ & _ & Hr & _).
  rewrite Hr, Hm1, HM, Ho. simpl. rewrite Ht. simpl.
  by rewrite Z.add_assoc.
Qed.

(** Without a cap no call raises. *)
Lemma uncapped_never_raises (e : ExpandingContainer) (hs : list Z) (n : nat) :
  max_height e = None → (n < length hs)%nat →
  (advance_calls (Expanding e) hs).2 !! n = Some (Return tt).
Proof.
  intros HM Hn. destruct (lookup_lt_is_Some_2 hs n Hn) as [h Hh].
  rewrite (advance_calls_lookup _ _ _ _ Hh).
  destruct (advance_calls_expanding e (take n hs)) as (e1 & E1 & Hm1).
  rewrite E1. destruct (advance_expanding e1 h) as (_ & _ & _ & _ & Hr & _).
  by rewrite Hr, Hm1, HM.
Qed.

(** As long as no call has raised, the height has grown by the exact sum
    of the heights advanced. *)
Lemma expanding_height (e : ExpandingContainer) (hs : list Z) :
  (∀ j, (j < length hs)%nat →
        (advance_calls (Expanding e) hs).2 !! j = Some (Return tt)) →
  height_of (advance_calls (Expanding e) hs).1 = e_height e + total hs.
Proof.
  revert e. induction hs as [|h hs IH]; intros e Hall; cbn [advance_calls].
  - unfold total. simpl. lia.
  - destruct (advance_expanding e h) as (e1 & E1 & _ & _ & _ & Hh).
    pose proof (Hall O ltac:(simpl; lia)) as H0.
    assert (∀ j, (j < length hs)%nat →
              (advance_calls (Expanding e1) hs).2 !! j = Some (Return tt))
      as Hall'.
    { intros j Hj. specialize (Hall (S j) ltac:(simpl; lia)).
      cbn [advance_calls] in Hall.
      destruct (advance (Expanding e) h) as [c1 r]. simpl in E1. subst c1.
      destruct (advance_calls (Expanding e1) hs). exact Hall. }
    specialize (IH e1 Hall').
    cbn [advance_calls] in H0.
    destruct (advance (Expanding e) h) as [c1 r]. simpl in E1, Hh. subst c1.
    destruct (advance_calls (Expanding e1) hs) as [c2 rs].
    simpl in H0, IH |- *. injection H0 as ->.
    rewrite IH, Hh. unfold total. simpl. lia.
Qed.
End Expanding.

Section ExpandingAnyArithmetic.
Context {N : Type} `{Arithmetic N}.

(** One [advance] of an expanding container. *)
Lemma ExpandingContainer_advance_in_step (c : ExpandingState N) (h : N) :
  es_max_height (ExpandingContainer_advance_in c h).1 = es_max_height c ∧
  es_offset (ExpandingContainer_advance_in c h).1 = num_add (es_offset c) h ∧
  (ExpandingContainer_advance_in c h).2 =
    (if match es_max_height c with
        | Some m => num_truth m && num_gt (num_add (es_offset c) h) m
        | None => false
        end
     then Raise EndOfContainer else Return tt) ∧
  es_height (ExpandingContainer_advance_in c h).1 =
    match (ExpandingContainer_advance_in c h).2 with
    | Return _ => num_add (es_height c) h
    | Raise _ => es_height c
    end.
Proof.
  unfold ExpandingContainer_advance_in.
  cbn [es_max_height es_offset es_height].
  by destruct (match es_max_height c with Some _ => _ | None => _ end).
Qed.

Lemma expanding_calls_state (c : ExpandingState N) (hs : list N) :
  es_offset (calls ExpandingContainer_advance_in c hs).1
    = fold_left num_add hs (es_offset c) ∧
  es_max_height (calls ExpandingContainer_advance_in c hs).1
    = es_max_height c.
Proof.
  revert c. induction hs as [|h hs IH]; intros c; cbn [calls]; [done|].
  destruct (ExpandingContainer_advance_in_step c h) as (Hm & Ho & _ & _).
  destruct (ExpandingContainer_advance_in c h) as [c1 r]. cbn [fst] in *.
  destruct (IH c1) as [IHo IHm].
  destruct (calls ExpandingContainer_advance_in c1 hs). cbn [fst] in *.
  by rewrite IHo, IHm, Ho, Hm.
Qed.

(** As long as no call has raised, the height has accumulated the same
    additions as the offset. *)
Lemma expanding_calls_height (c : ExpandingState N) (hs : list N) :
  (∀ j, (j < length hs)%nat →
        (calls ExpandingContainer_advance_in c hs).2 !! j = Some (Return tt)) →
  es_height (calls ExpandingContainer_advance_in c hs).1
    = fold_left num_add hs (es_height c).
Proof.
  revert c. induction hs as [|h hs IH]; intros c Hall; cbn [calls]; [done|].
  destruct (ExpandingContainer_advance_in_step c h) as (_ & _ & _ & Hh).
  pose proof (Hall O ltac:(simpl; lia)) as H0.
  assert (∀ j, (j < length hs)%nat →
            (calls ExpandingContainer_advance_in
                   (ExpandingContainer_advance_in c h).1 hs).2 !! j
              = Some (Return tt)) as Hall'.
  { intros j Hj. specialize (Hall (S j) ltac:(simpl; lia)).
    cbn [calls] in Hall.
    destruct (ExpandingContainer_advance_in c h) as [c1 r]. cbn [fst].
    destruct (calls ExpandingContainer_advance_in c1 hs). exact Hall. }
  cbn [calls] in H0.
  destruct (ExpandingContainer_advance_in c h) as [c1 r]. cbn [fst snd] in *.
  specialize (IH c1 Hall').
  destruct (calls ExpandingContainer_advance_in c1 hs) as [c2 rs].
  cbn [fst snd] in *. injection H0 as ->. by rewrite IH, Hh.
Qed.

(** With a cap the truth test takes as set, every call of a sequence on a
    fresh container raises exactly when the accumulated sum exceeds the
    cap. *)
Lemma capped_call (M : N) (hs : list N) (n : nat) :
  num_truth M = true → (n < length hs)%nat →
  (calls ExpandingContainer_advance_in
         (mkExpandingState (Some M) num_zero num_zero) hs).2 !! n
    = Some (if num_gt (accumulate (take (S n) hs)) M
            then Raise EndOfContainer else Return tt).
Proof.
  intros Ht Hn. destruct (lookup_lt_is_Some_2 hs n Hn) as [h Hh].
  rewrite (calls_lookup _ _ _ _ _ Hh). unfold accumulate.
  rewrite (accumulate_take_S _ _ _ _ Hh).
  destruct (expanding_calls_state
              (mkExpandingState (Some M) num_zero num_zero) (take n hs))
    as [Ho Hm]. cbn [es_offset es_max_height] in Ho, Hm.
  destruct (ExpandingContainer_advance_in_step
              (calls ExpandingContainer_advance_in
                     (mkExpandingState (Some M) num_zero num_zero)
                     (take n hs)).1 h) as (_ & _ & Hr & _).
  rewrite Hr, Hm, Ho, Ht. done.
Qed.

(** Without a cap no call raises. *)
Lemma uncapped_call (hs : list N) (n : nat) :
  (n < length hs)%nat →
  (calls ExpandingContainer_advance_in
         (mkExpandingState None num_zero num_zero) hs).2 !! n
    = Some (Return tt).
Proof.
  intros Hn. destruct (lookup_lt_is_Some_2 hs n Hn) as [h Hh].
  rewrite (calls_lookup _ _ _ _ _ Hh).
  destruct (expanding_calls_state
              (mkExpandingState None num_zero num_zero) (take n hs))
    as [_ Hm]. cbn [es_max_height] in Hm.
  destruct (ExpandingContainer_advance_in_step
              (calls ExpandingContainer_advance_in
                     (mkExpandingState None num_zero num_zero)
                     (take n hs)).1 h) as (_ & _ & Hr & _).
  by rewrite Hr, Hm.
Qed.

(** C4, amended.  For an [ExpandingContainer] fresh from its constructor
    (offset and height zero) and calls [advance(h1)], [advance(h2)], ...
    whose exceptions the caller catches, in any arithmetic and so in
    binary64.  With a cap [max_height = M] that the test
    [if self.max_height] takes as set: the call number [n] raises
    [EndOfContainer] exactly when the amount as the code accumulates it
    (from zero, [h1], ..., [hn] added one after the other, each addition
    rounded as the arithmetic rounds) is greater than [M]; and as long as
    that accumulated amount has not exceeded [M], the height after the call
    is that accumulated amount.  With [max_height = None] no call raises. *)
Theorem C4_expanding_advance (hs : list N) :
  (∀ M n, num_truth M = true → (n < length hs)%nat →
     (calls ExpandingContainer_advance_in
            (mkExpandingState (Some M) num_zero num_zero) hs).2 !! n
       = Some (if num_gt (accumulate (take (S n) hs)) M
               then Raise EndOfContainer else Return tt) ∧
     ((∀ j, (j ≤ n)%nat → num_gt (accumulate (take (S j) hs)) M = false) →
      es_height (calls ExpandingContainer_advance_in
                       (mkExpandingState (Some M) num_zero num_zero)
                       (take (S n) hs)).1
        = accumulate (take (S n) hs))) ∧
  (∀ n, (n < length hs)%nat →
     (calls ExpandingContainer_advance_in
            (mkExpandingState None num_zero num_zero) hs).2 !! n
       = Some (Return tt)).
Proof.
  split.
  - intros M n Ht Hn. split; [by apply capped_call|].
    intros Hbelow. rewrite expanding_calls_height; [done|].
    intros j Hj. rewrite length_take in Hj.
    rewrite capped_call; [|done | rewrite length_take; lia].
    rewrite take_take. replace (S j `min` S n)%nat with (S j) by lia.
    rewrite Hbelow by lia. done.
  - intros n Hn. destruct (lookup_lt_is_Some_2 hs n Hn) as [h Hh].
    rewrite (calls_lookup _ _ _ _ _ Hh).
    destruct (expanding_calls_state
                (mkExpandingState None num_zero num_zero) (take n hs))
      as [_ Hm]. cbn [es_max_height] in Hm.
    destruct (ExpandingContainer_advance_in_step
                (calls ExpandingContainer_advance_in
                       (mkExpandingState None num_zero num_zero)
                       (take n hs)).1 h) as (_ & _ & Hr & _).
    by rewrite Hr, Hm.
Qed.
End ExpandingAnyArithmetic.

(** The integer model of [ExpandingContainer.advance] is this one in the
    exact arithmetic. *)
Lemma ExpandingContainer_advance_exact `{Dimension} (e : ExpandingContainer)
    (h : Z) :
  expanding_state (ExpandingContainer_advance e h).1
    = (@ExpandingContainer_advance_in Z (exact _) (expanding_state e) h).1 ∧
  (ExpandingContainer_advance e h).2
    = (@ExpandingContainer_advance_in Z (exact _) (expanding_state e) h).2.
Proof.
  unfold ExpandingContainer_advance, ExpandingContainer_advance_in,
    expanding_state, expand, bool_of. cbn.
  destruct (max_height e) as [m|]; [|done]. cbn.
  by destruct (truthy m && (m <? _flowable_offset (e_base e) + h)).
Qed.

(** C4, as stated, fails.  In the arithmetic of the code: with a cap of 7
    and ten advances by the binary64 number closest to 0.7, the exact
    cumulative amount never exceeds 7, yet the tenth call raises.  And with
    plain numbers for lengths a configured cap of 0 is false for the test
    [if self.max_height]: advancing by 5 and by 7 raises nothing and the
    height ends at 12. *)
Lemma C4_counterexample :
  (10 * exact_value seven_tenths <=? exact_value 7%float) = true ∧
  (calls (@ExpandingContainer_advance_in float binary64)
         (mkExpandingState (Some 7%float) 0%float 0%float)
         ten_advances).2 !! 9%nat
    = Some (Raise EndOfContainer) ∧
  (@advance_calls number_truth (expanding_box 50 (Some 0)) [5; 7]).2
    = [Return tt; Return tt] ∧
  height_of (@advance_calls number_truth (expanding_box 50 (Some 0)) [5; 7]).1
    = 12.
Proof. repeat split; vm_compute; reflexivity. Qed.

Lemma C4_witness :
  (calls (@ExpandingContainer_advance_in float binary64)
         (mkExpandingState (Some 7%float) 0%float 0%float)
         ten_advances).2 !! 9%nat
    = Some (Raise EndOfContainer) ∧
  es_height (calls (@ExpandingContainer_advance_in float binary64)
                   (mkExpandingState (Some 7%float) 0%float 0%float)
                   (take 9 ten_advances)).1
    = 0x1.9333333333334p+2%float ∧
  (calls (@ExpandingContainer_advance_in float binary64)
         (mkExpandingState None 0%float 0%float) ten_advances).2 !! 9%nat
    = Some (Return tt).
Proof.
  destruct (@C4_expanding_advance float binary64 ten_advances)
    as [Hcap Hnone].
  destruct (Hcap 7%float 9%nat eq_refl ltac:(vm_compute; lia)) as [Hr _].
  destruct (Hcap 7%float 8%nat eq_refl ltac:(vm_compute; lia)) as [_ Hh].
  split; [exact Hr|]. split.
  - transitivity (@accumulate float binary64 (take 9 ten_advances));
      [|vm_compute; reflexivity].
    apply Hh. intros j Hj.
    do 9 (destruct j as [|j]; [vm_compute; reflexivity|]). lia.
  - apply Hnone. vm_compute; lia.
Defined.

(** Where lengths are plain Python numbers, a cap of 0 is false for the test
    [if self.max_height] and is then not enforced; this is why C4 speaks of
    a cap the test takes as set. *)
Remark zero_cap_as_number :
  (@advance number_truth (expanding_box 50 (Some 0)) 5).2 = Return tt.
Proof. reflexivity. Qed.

(** ** Construction *)

(** C7, as stated, fails: with nothing but a parent given, a subset the rule
    of the specification calls insufficient, the constructor builds a
    container that fills the parent; with three values that contradict each
    other it builds one as well and drops the right edge it was given. *)
Lemma C7_counterexample :
  spec_resolvable None None None = false ∧
  @Container_init object_truth (Some (box 200 300)) None None None None None
                  None 0
    = Built (mkContainer (mkContainerBase 0 200 200 0 0) 0 300 300) ∧
  spec_resolvable (Some 1) (Some 2) (Some 10) = false ∧
  @Container_init object_truth (Some (box 200 300)) (Some 1) (Some 0) (Some 2)
                  (Some 5) (Some 10) (Some 5) 0
    = Built (mkContainer (mkContainerBase 1 2 3 0 0) 0 5 5).
Proof. repeat split. Qed.

(** C7, amended.  Constructing a [Container] under a parent never ends in a
    configuration error, and every subset of the six lengths is accepted:
    the call builds the container unless, on one axis, the far edge is
    given alone with a false truth value (then Python's [TypeError] ends
    it).  An omitted left is [right - width] when both are given and 0
    otherwise; an omitted width is [right - left] when right is given and
    [parent.width - left] otherwise; right is stored as [left + width]
    whatever was passed for it.  The vertical axis follows the same rule
    with top, height, bottom and the parent's height. *)
Theorem C7_construction_defaults `{Dimension} (p : container)
    (l t w h r b : option Z) (canvas : Z) :
  is_Built (Container_init (Some p) l t w h r b canvas)
    = axis_built l w r && axis_built t h b ∧
  ∀ c, Container_init (Some p) l t w h r b canvas = Built c →
       left (c_base c) = near_edge l w r ∧
       width (c_base c) = size_along (width (base p)) l w r ∧
       right (c_base c) = left (c_base c) + width (c_base c) ∧
       top c = near_edge t h b ∧
       height c = size_along (height_of p) t h b ∧
       bottom c = top c + height c ∧
       _flowable_offset (c_base c) = 0.
Proof.
  unfold Container_init, ContainerBase_init, axis_built, near_edge,
    size_along, py_and, py_sub, bool_of, parent_width, parent_height.
  destruct l as [l|], w as [w|], r as [r|]; simpl;
    try destruct (truthy r); simpl;
    (destruct t as [t|], h as [h|], b as [b|]; simpl;
     try destruct (truthy b); simpl;
     (split; [reflexivity | intros c [=]; subst c; simpl; repeat split])).
Qed.

Lemma C7_witness :
  ∃ c, @Container_init object_truth (Some (box 200 300)) None None None None
                       (Some 150) None 0 = Built c ∧
       left (c_base c) = 0 ∧ width (c_base c) = 150 ∧ height c = 300.
Proof.
  eexists. split; [reflexivity|].
  destruct (@C7_construction_defaults object_truth (box 200 300)
              None None None None (Some 150) None 0) as [_ Hc].
  destruct (Hc _ eq_refl) as (Hl & Hw & _ & _ & Hh & _).
  split; [exact Hl|]. split; [exact Hw | exact Hh].
Defined.

(** ** [Flowable.flow] *)

Section FlowProperties.
Context `{Dimension} {B : Type} `{FlowableClass B}.

(** A normal return of [flow_content] hands back the final cursor minus
    [start_offset]. *)
Lemma flow_content_returns (self : Flowable B) (c : container) (start : Z)
    (self' : Flowable B) (c' : container) (v : Z) :
  flow_content self c start = (self', c', Return v) →
  v = cursor c' - start ∧ resume self' = false.
Proof.
  unfold flow_content. destruct (render self c) as [[self1 c1] [[]|e]];
    [|discriminate].
  destruct (advance c1 (space_below (set_resume self1 false))) as [c2 r2].
  intros [= <- <- <-]. done.
Qed.

(** [flow] returns the cursor after the call minus the cursor before it. *)
Lemma flow_returns_cursor_difference (self : Flowable B) (c : container)
    (self' : Flowable B) (c' : container) (v : Z) :
  Flowable_flow self c = (self', c', Return v) →
  v = cursor c' - cursor c.
Proof.
  unfold Flowable_flow. destruct (negb (resume self)).
  - destruct (advance c _) as [c1 [[]|e]]; [|discriminate].
    intros Hf. by apply flow_content_returns in Hf as [-> _].
  - intros Hf. by apply flow_content_returns in Hf as [-> _].
Qed.

(** C5, what the code returns.  [flow] computes [container.cursor -
    start_offset], and the cursor is the canvas height minus the offset: with
    the canvas height unchanged, the value returned is the vertical space
    consumed (the growth of the offset) with its sign reversed. *)
Theorem C5_flow_returns_negated_space (self : Flowable B) (c : container)
    (self' : Flowable B) (c' : container) (v : Z) :
  Flowable_flow self c = (self', c', Return v) →
  canvas_height (base c') = canvas_height (base c) →
  v = - (offset c' - offset c).
Proof.
  intros Hf Hc. apply flow_returns_cursor_difference in Hf.
  unfold cursor in Hf. lia.
Qed.

(** C8.  A flowable whose [resume] flag is true when [flow] is called gets
    no advance by [space_above]: [render] is the first thing done to the
    container, which it gets with the offset it was handed over with, and
    the only advance [flow] makes itself is the one by [space_below] after
    it.  A flowable whose flag is false has the container's offset advanced
    by [space_above] first: [render] gets the container so advanced, or,
    when that advance raises, the exception leaves [flow] with the offset
    advanced all the same and nothing rendered.  So where [render] moves the
    offset by [d], a [flow] that returns has moved it by [d + space_below]
    for a resumed flowable and by [space_above + d + space_below] for a
    fresh one. *)
Theorem C8_space_above_only_when_fresh (self : Flowable B) (c : container) :
  (resume self = true →
     Flowable_flow self c =
       let '(self1, c1, r) := render self c in
       match r with
       | Raise e => (self1, c1, Raise e)
       | Return _ =>
           (set_resume self1 false,
            (advance c1 (space_below self1)).1,
            Return (cursor (advance c1 (space_below self1)).1 - cursor c))
       end) ∧
  (resume self = false →
     offset (advance c (space_above self)).1 = offset c + space_above self ∧
     Flowable_flow self c =
       match (advance c (space_above self)).2 with
       | Raise e =>
           (set_resume self true, (advance c (space_above self)).1, Raise e)
       | Return _ =>
           let '(self1, c1, r) :=
             render (set_resume self true) (advance c (space_above self)).1 in
           match r with
           | Raise e => (self1, c1, Raise e)
           | Return _ =>
               (set_resume self1 false,
                (advance c1 (space_below self1)).1,
                Return (cursor (advance c1 (space_below self1)).1 - cursor c))
           end
       end) ∧
  (∀ d,
     (∀ s c', offset (render s c').1.2 = offset c' + d ∧
              space_below (render s c').1.1 = space_below s) →
     raised (Flowable_flow self c).2 = false →
     offset (Flowable_flow self c).1.2 =
       offset c + (if resume self then 0 else space_above self) + d
       + space_below self).
Proof.
  unfold Flowable_flow, flow_content. split; [|split].
  - intros ->; cbn [negb].
    destruct (render self c) as [[self1 c1] [v|e]]; [|done].
    change (space_below (set_resume self1 false)) with (space_below self1).
    by destruct (advance c1 (space_below self1)).
  - intros ->; cbn [negb]. split; [apply advance_offset|].
    change (space_above (set_resume self true)) with (space_above self).
    destruct (advance c (space_above self)) as [c0 [v0|e0]];
      cbn [fst snd]; [|done].
    destruct (render (set_resume self true) c0) as [[self1 c1] [v|e]];
      [|done].
    change (space_below (set_resume self1 false)) with (space_below self1).
    by destruct (advance c1 (space_below self1)).
  - intros d Hd. destruct (resume self); cbn [negb].
    + destruct (Hd self c) as [Ho Hb].
      destruct (render self c) as [[self1 c1] [v|e]]; [|done].
      cbn [fst snd] in Ho, Hb.
      change (space_below (set_resume self1 false)) with (space_below self1).
      pose proof (advance_offset c1 (space_below self1)) as Ha.
      destruct (advance c1 (space_below self1)) as [c2 r2].
      cbn [fst snd] in *. intros _. lia.
    + change (space_above (set_resume self true)) with (space_above self).
      pose proof (advance_offset c (space_above self)) as Ha0.
      destruct (advance c (space_above self)) as [c0 [v0|e0]];
        cbn [fst snd] in *; [|done].
      destruct (Hd (set_resume self true) c0) as [Ho Hb].
      destruct (render (set_resume self true) c0) as [[self1 c1] [v|e]];
        [|done].
      cbn [fst snd] in Ho, Hb.
      change (space_below (set_resume self1 false)) with (space_below self1).
      change (space_below (set_resume self true)) with (space_below self) in Hb.
      pose proof (advance_offset c1 (space_below self1)) as Ha.
      destruct (advance c1 (space_below self1)) as [c2 r2].
      cbn [fst snd] in *. intros _. lia.
Qed.

(** C10.  When a flowable with [resume = false] is flowed and the advance by
    [space_above] raises, [flow] ends with that exception, the flag already
    set to true and the content not rendered (the flowable is otherwise as it
    was, the container has only had its offset advanced); flowed again into
    any container, the flowable is rendered there without an advance by
    [space_above]. *)
Theorem C10_resume_set_before_space_above (self : Flowable B) (c : container)
    (e : exn) :
  resume self = false →
  (advance c (space_above self)).2 = Raise e →
  Flowable_flow self c =
    (set_resume self true, (advance c (space_above self)).1, Raise e) ∧
  resume (Flowable_flow self c).1.1 = true ∧
  ∀ c2, Flowable_flow (Flowable_flow self c).1.1 c2 =
          flow_content (set_resume self true) c2 (cursor c2).
Proof.
  intros Hr Ha.
  assert (Flowable_flow self c =
            (set_resume self true, (advance c (space_above self)).1, Raise e))
    as Hf.
  { unfold Flowable_flow. rewrite Hr. simpl.
    destruct (advance c (space_above self)) as [c1 r]. simpl in Ha. by subst r. }
  rewrite Hf. simpl. split; [done|]. split; [done|].
  intros c2. unfold Flowable_flow. reflexivity.
Qed.
End FlowProperties.

(** The block of height 3 with 2 above and 1 below, flowed into a fresh
    container of height 100, consumes 6 and [flow] returns -6. *)
Lemma C5_witness :
  @Flowable_flow object_truth Z (Block object_truth)
                 (mkFlowable false 2 1 3) (box 50 100)
    = (mkFlowable false 2 1 3,
       Bounded (mkContainer (mkContainerBase 0 50 50 6 0) 0 100 100),
       Return (-6)) ∧
  -6 = - (6 - 0).
Proof.
  split; [reflexivity|].
  apply (@C5_flow_returns_negated_space object_truth Z (Block object_truth)
           (mkFlowable false 2 1 3) (box 50 100) _ _ (-6) eq_refl eq_refl).
Defined.

Lemma C8_witness :
  offset (@Flowable_flow object_truth Z (Block object_truth)
            (mkFlowable true 2 1 3) (box 50 100)).1.2 = 4 ∧
  offset (@Flowable_flow object_truth Z (Block object_truth)
            (mkFlowable false 2 1 3) (box 50 100)).1.2 = 6.
Proof.
  destruct (@C8_space_above_only_when_fresh object_truth Z (Block object_truth)
              (mkFlowable true 2 1 3) (box 50 100)) as (Hres & _ & _).
  destruct (@C8_space_above_only_when_fresh object_truth Z (Block object_truth)
              (mkFlowable false 2 1 3) (box 50 100)) as (_ & Hfresh & _).
  rewrite (Hres eq_refl).
  destruct (Hfresh eq_refl) as [_ Hf]. rewrite Hf.
  split; reflexivity.
Defined.

Lemma C10_witness :
  (@Flowable_flow object_truth Z (Block object_truth)
                  (mkFlowable false 20 1 3) (box 50 10)).1.1
    = mkFlowable true 20 1 3 ∧
  offset (@Flowable_flow object_truth Z (Block object_truth)
            (mkFlowable true 20 1 3) (box 50 100)).1.2 = 4.
Proof.
  destruct (@C10_resume_set_before_space_above object_truth Z
              (Block object_truth) (mkFlowable false 20 1 3) (box 50 10)
              EndOfContainer eq_refl eq_refl) as (Hf & _ & Hnext).
  rewrite Hf. split; [reflexivity|].
  rewrite Hf in Hnext. simpl in Hnext. unfold set_resume in Hnext.
  simpl in Hnext. rewrite (Hnext (box 50 100)). reflexivity.
Defined.

(** ** [Chain.render] *)

Section ChainProperties.
Context `{Dimension} {B : Type} `{FlowableClass B}.

Lemma ContainerBase_flow_chains (c f : nat) (w : World B) :
  chains (ContainerBase_flow c f w).1 = chains w ∧
  trace (ContainerBase_flow c f w).1 = trace w.
Proof.
  unfold ContainerBase_flow.
  destruct (Flowable_flow (flowable_objects w f) (containers w c))
    as [[f' c'] r]. done.
Qed.

Lemma next_flowable_chain (self : nat) (w : World B) :
  chains (next_flowable self w) self =
    mkChain (flowables (chains w self)) (_containers (chains w self))
            (_container_index (chains w self))
            (S (_flowable_index (chains w self))).
Proof. unfold next_flowable. simpl. apply fn_lookup_insert. Qed.

Lemma next_container_chain (self : nat) (w : World B) :
  chains (next_container self w) self =
    mkChain (flowables (chains w self)) (_containers (chains w self))
            (S (_container_index (chains w self)))
            (_flowable_index (chains w self)).
Proof. unfold next_container. simpl. apply fn_lookup_insert. Qed.

Lemma log_trace (ev : event) (w : World B) :
  trace (log ev w) = trace w ++ [ev].
Proof. reflexivity. Qed.

Lemma log_chains (ev : event) (w : World B) :
  chains (log ev w) = chains w.
Proof. reflexivity. Qed.

Lemma next_flowable_trace (self : nat) (w : World B) :
  trace (next_flowable self w) = trace w.
Proof. reflexivity. Qed.

Lemma next_container_trace (self : nat) (w : World B) :
  trace (next_container self w) = trace w.
Proof. reflexivity. Qed.

(** The chain after one step of the inner loop: only the flowable index
    moved. *)
Lemma flow_step_chain (self k c f : nat) (w : World B) (o : bool) :
  chains (next_flowable self
            (log (Flowed self k (_flowable_index (chains w self)) o)
                 (ContainerBase_flow c f w).1)) self =
    mkChain (flowables (chains w self)) (_containers (chains w self))
            (_container_index (chains w self))
            (S (_flowable_index (chains w self))).
Proof.
  rewrite next_flowable_chain. unfold log. simpl.
  by destruct (ContainerBase_flow_chains c f w) as [-> _].
Qed.

(** What the inner loop does, whatever its bound: it appends flow events of
    this container only, raises exactly when one of them is a raising flow,
    leaves the chain's lists and container index alone, and when it raises a
    flowable is still to be placed. *)
Lemma flow_flowables_spec (n self k c : nat) (w : World B) :
  ∃ new,
    trace (flow_flowables n self k c w).1 = trace w ++ new ∧
    (∀ ev, ev ∈ new → ∃ i o, ev = Flowed self k i o) ∧
    (raised (flow_flowables n self k c w).2 = true ↔
       ∃ i, Flowed self k i true ∈ new) ∧
    flowables (chains (flow_flowables n self k c w).1 self)
      = flowables (chains w self) ∧
    _containers (chains (flow_flowables n self k c w).1 self)
      = _containers (chains w self) ∧
    _container_index (chains (flow_flowables n self k c w).1 self)
      = _container_index (chains w self) ∧
    (raised (flow_flowables n self k c w).2 = true →
       (_flowable_index (chains (flow_flowables n self k c w).1 self)
          < length (flowables (chains w self)))%nat).
Proof.
  revert w. induction n as [|n IH]; intros w; cbn [flow_flowables].
  { exists []. rewrite app_nil_r. simpl.
    repeat split; try done; try (intros [? Hin]; by apply elem_of_nil in Hin).
    intros ? Hin. by apply elem_of_nil in Hin. }
  destruct (flowables (chains w self) !! _flowable_index (chains w self))
    as [f|] eqn:Hf.
  2:{ exists []. rewrite app_nil_r. simpl.
      repeat split; try done; try (intros [? Hin]; by apply elem_of_nil in Hin).
      intros ? Hin. by apply elem_of_nil in Hin. }
  pose proof (ContainerBase_flow_chains c f w) as [Hch Htr].
  pose proof (flow_step_chain self k c f w) as Hstep.
  destruct (ContainerBase_flow c f w) as [w1 [v|e]]; cbn [fst snd] in *.
  - specialize (Hstep false).
    destruct (IH (next_flowable self
                    (log (Flowed self k (_flowable_index (chains w self)) false)
                         w1)))
      as (new & Ht & Hev & Hr & Hfl & Hcs & Hci & Hleft).
    rewrite Hstep in Hfl, Hcs, Hci, Hleft. cbn [flowables _containers _container_index _flowable_index raised] in *.
    exists (Flowed self k (_flowable_index (chains w self)) false :: new).
    rewrite Ht, next_flowable_trace, log_trace, Htr, <- app_assoc.
    cbn [app].
    repeat split; try done.
    + intros ev [->|Hin]%elem_of_cons; eauto.
    + intros Hraised. destruct (proj1 Hr Hraised) as [i Hi].
      exists i. by apply elem_of_cons; right.
    + intros [i [[=]|Hi]%elem_of_cons]. apply Hr. eauto.
  - exists [Flowed self k (_flowable_index (chains w self)) true].
    rewrite log_trace, log_chains, Htr, Hch. repeat split; try done.
    + intros ev ->%list_elem_of_singleton. eauto.
    + intros _. eexists. by apply list_elem_of_singleton.
    + intros _. by apply lookup_lt_Some in Hf.
Qed.

(** The bound the inner loop is given is enough: with a bound of at least
    the number of flowables left, the loop does not depend on it. *)
Lemma flow_flowables_enough (n m self k c : nat) (w : World B) :
  (flowables_left (chains w self) ≤ n)%nat →
  (flowables_left (chains w self) ≤ m)%nat →
  flow_flowables n self k c w = flow_flowables m self k c w.
Proof.
  revert m w. induction n as [|n IH]; intros m w Hn Hm.
  - unfold flowables_left in *. destruct m as [|m]; [done|].
    cbn [flow_flowables]. rewrite lookup_ge_None_2 by lia. done.
  - cbn [flow_flowables].
    destruct (flowables (chains w self) !! _flowable_index (chains w self))
      as [f|] eqn:Hf.
    2:{ destruct m; [done|]. cbn [flow_flowables]. by rewrite Hf. }
    pose proof (lookup_lt_Some _ _ _ Hf) as Hlt.
    unfold flowables_left in *.
    destruct m as [|m]; [lia|]. cbn [flow_flowables]. rewrite Hf.
    pose proof (flow_step_chain self k c f w) as Hstep.
    destruct (ContainerBase_flow c f w) as [w1 [v|e]]; [|done].
    cbn [fst snd raised] in *. apply IH; rewrite (Hstep false); simpl; lia.
Qed.

(** The inner loop is the [while] loop of the source: it stops when no
    flowable is left, and otherwise flows the next one and goes on. *)
Lemma flow_flowables_while (self k c : nat) (w : World B) :
  flow_flowables (flowables_left (chains w self)) self k c w =
    match flowables (chains w self) !! _flowable_index (chains w self) with
    | None => (w, Return tt)
    | Some f =>
        let '(w1, r) := ContainerBase_flow c f w in
        let w2 := log (Flowed self k (_flowable_index (chains w self))
                              (raised r)) w1 in
        match r with
        | Raise e => (w2, Raise e)
        | Return _ =>
            flow_flowables (flowables_left (chains (next_flowable self w2) self))
                           self k c (next_flowable self w2)
        end
    end.
Proof.
  destruct (flowables (chains w self) !! _flowable_index (chains w self))
    as [f|] eqn:Hf.
  - pose proof (lookup_lt_Some _ _ _ Hf) as Hlt.
    unfold flowables_left at 1.
    destruct (length (flowables (chains w self))
              - _flowable_index (chains w self))%nat as [|n] eqn:Hn; [lia|].
    cbn [flow_flowables]. rewrite Hf.
    pose proof (flow_step_chain self k c f w) as Hstep.
    destruct (ContainerBase_flow c f w) as [w1 [v|e]]; [|done].
    cbn [fst snd raised] in *. apply flow_flowables_enough; [|done].
    unfold flowables_left. rewrite (Hstep false). simpl. lia.
  - destruct (flowables_left (chains w self)); cbn [flow_flowables];
      [done | by rewrite Hf].
Qed.
End ChainProperties.

Section ChainRender.
Context `{Dimension} {B : Type} `{FlowableClass B}.

(** What the outer loop does, whatever its bound. *)
Lemma render_containers_spec (n self : nat) (w : World B) :
  ∃ new,
    trace (render_containers n self w).1 = trace w ++ new ∧
    (∀ ev, ev ∈ new →
       ∃ k i o, ev = Flowed self k i o ∧
                (_container_index (chains w self) ≤ k)%nat) ∧
    ((render_containers n self w).2 = Raise (EndOfPage self) ↔
       ∃ k i, S k = length (_containers (chains w self)) ∧
              Flowed self k i true ∈ new) ∧
    ((render_containers n self w).2 = Return tt ∨
     (render_containers n self w).2 = Raise (EndOfPage self)) ∧
    flowables (chains (render_containers n self w).1 self)
      = flowables (chains w self) ∧
    _containers (chains (render_containers n self w).1 self)
      = _containers (chains w self) ∧
    ((render_containers n self w).2 = Raise (EndOfPage self) →
       (_flowable_index (chains (render_containers n self w).1 self)
          < length (flowables (chains w self)))%nat).
Proof.
  revert w. induction n as [|n IH]; intros w; cbn [render_containers].
  { exists []. rewrite app_nil_r. cbn [fst snd].
    repeat split; try done; try (by left).
    - intros ? Hin. by apply elem_of_nil in Hin.
    - intros (? & ? & _ & Hin). by apply elem_of_nil in Hin. }
  destruct (_containers (chains w self) !! _container_index (chains w self))
    as [c|] eqn:Hc.
  2:{ exists []. rewrite app_nil_r. cbn [fst snd].
      repeat split; try done; try (by left).
      - intros ? Hin. by apply elem_of_nil in Hin.
      - intros (? & ? & _ & Hin). by apply elem_of_nil in Hin. }
  pose proof (lookup_lt_Some _ _ _ Hc) as Hlt.
  pose proof (flow_flowables_spec
                (flowables_left (chains (next_container self w) self)) self
                (_container_index (chains w self)) c (next_container self w))
    as (newi & Hti & Hevi & Hri & Hfli & Hcsi & Hcii & Hlefti).
  destruct (flow_flowables _ self _ c (next_container self w)) as [w2 r].
  cbn [fst snd] in *.
  rewrite next_container_chain in Hfli, Hcsi, Hcii, Hlefti.
  rewrite next_container_trace in Hti.
  cbn [flowables _containers _container_index] in Hfli, Hcsi, Hcii, Hlefti.
  assert (∀ k i, S k = length (_containers (chains w self)) →
                 Flowed self k i true ∈ newi →
                 k = _container_index (chains w self) ∧ raised r = true)
    as Hini.
  { intros k i Hk Hin. destruct (Hevi _ Hin) as (i' & o & [= -> _ _]).
    split; [done|]. apply Hri. eauto. }
  destruct (IH w2) as (newr & Htr & Hevr & Hrr & Hor & Hflr & Hcsr & Hleftr).
  rewrite Hcsi in Hrr, Hcsr. rewrite Hcii in Hevr. rewrite Hfli in Hflr, Hleftr.
  assert (∃ new,
    trace (render_containers n self w2).1 = trace w ++ new ∧
    (∀ ev, ev ∈ new →
       ∃ k i o, ev = Flowed self k i o ∧
                (_container_index (chains w self) ≤ k)%nat) ∧
    (raised r = false ∨
       (S (_container_index (chains w self))
          < length (_containers (chains w self)))%nat →
     ((render_containers n self w2).2 = Raise (EndOfPage self) ↔
       ∃ k i, S k = length (_containers (chains w self)) ∧
              Flowed self k i true ∈ new))) as Hrec.
  { exists (newi ++ newr). rewrite Htr, Hti, app_assoc.
    split; [done|]. split.
    - intros ev [Hin|Hin]%elem_of_app.
      + destruct (Hevi _ Hin) as (i & o & ->). eauto 10.
      + destruct (Hevr _ Hin) as (k & i & o & -> & Hk).
        exists k, i, o. split; [done | lia].
    - intros Hcase. rewrite Hrr. split.
      + intros (k & i & Hk & Hin). exists k, i. split; [done|].
        apply elem_of_app. by right.
      + intros (k & i & Hk & [Hin|Hin]%elem_of_app); [|eauto].
        destruct (Hini k i Hk Hin) as [-> Hraised].
        destruct Hcase as [Hno|Hnotlast]; [congruence | lia]. }
  destruct r as [[]|e].
  - destruct Hrec as (new & Ht & Hev & Hiff). exists new.
    specialize (Hiff (or_introl eq_refl)). done.
  - rewrite Hcsi, Hcii.
    destruct (Z.ltb_spec
                (Z.of_nat (length (_containers (chains w self))) - 1)
                (Z.of_nat (S (_container_index (chains w self))))) as [Hlast|Hmore].
    + exists newi. cbn [fst snd].
      repeat split; try done; try (by right); try (by apply Hlefti).
      * intros ev Hin. destruct (Hevi _ Hin) as (i & o & ->). eauto 10.
      * intros _. destruct (proj1 Hri eq_refl) as [i Hi].
        exists (_container_index (chains w self)), i. split; [lia | done].
      * intros _. by apply Hlefti.
    + destruct Hrec as (new & Ht & Hev & Hiff). exists new.
      assert (S (_container_index (chains w self))
                < length (_containers (chains w self)))%nat as Hnl by lia.
      specialize (Hiff (or_intror Hnl)). done.
Qed.
End ChainRender.

Section ChainClaim.
Context `{Dimension} {B : Type} `{FlowableClass B}.

(** The bound the outer loop is given is enough. *)
Lemma render_containers_enough (n m self : nat) (w : World B) :
  (containers_left (chains w self) ≤ n)%nat →
  (containers_left (chains w self) ≤ m)%nat →
  render_containers n self w = render_containers m self w.
Proof.
  revert m w. induction n as [|n IH]; intros m w Hn Hm.
  - unfold containers_left in *. destruct m as [|m]; [done|].
    cbn [render_containers]. rewrite lookup_ge_None_2 by lia. done.
  - cbn [render_containers].
    destruct (_containers (chains w self) !! _container_index (chains w self))
      as [c|] eqn:Hc.
    2:{ destruct m; [done|]. cbn [render_containers]. by rewrite Hc. }
    pose proof (lookup_lt_Some _ _ _ Hc) as Hlt.
    unfold containers_left in *.
    destruct m as [|m]; [lia|]. cbn [render_containers]. rewrite Hc.
    pose proof (flow_flowables_spec
                  (flowables_left (chains (next_container self w) self)) self
                  (_container_index (chains w self)) c (next_container self w))
      as (_ & _ & _ & _ & _ & Hcs & Hci & _).
    destruct (flow_flowables _ self _ c (next_container self w)) as [w2 r].
    cbn [fst snd] in *. rewrite next_container_chain in Hcs, Hci.
    cbn [_containers _container_index] in Hcs, Hci.
    assert (render_containers n self w2 = render_containers m self w2) as ->
      by (apply IH; rewrite Hcs, Hci; lia).
    done.
Qed.

(** [Chain_render] is the [while] loop of the source: it stops when no
    container is left, and otherwise takes the next container, flows into
    it, and goes on or raises [EndOfPage]. *)
Lemma Chain_render_while (self : nat) (w : World B) :
  Chain_render self w =
    match _containers (chains w self) !! _container_index (chains w self) with
    | None => (w, Return tt)
    | Some c =>
        let w1 := next_container self w in
        let '(w2, r) :=
          flow_flowables (flowables_left (chains w1 self)) self
                         (_container_index (chains w self)) c w1 in
        match r with
        | Return _ => Chain_render self w2
        | Raise _ =>
            if Z.of_nat (length (_containers (chains w2 self))) - 1
               <? Z.of_nat (_container_index (chains w2 self))
            then (w2, Raise (EndOfPage self))
            else Chain_render self w2
        end
    end.
Proof.
  unfold Chain_render.
  destruct (_containers (chains w self) !! _container_index (chains w self))
    as [c|] eqn:Hc.
  2:{ destruct (containers_left (chains w self)); cbn [render_containers];
        [done | by rewrite Hc]. }
  pose proof (lookup_lt_Some _ _ _ Hc) as Hlt.
  unfold containers_left at 1.
  destruct (length (_containers (chains w self))
            - _container_index (chains w self))%nat as [|n] eqn:Hn; [lia|].
  cbn [render_containers]. rewrite Hc. cbn zeta.
  pose proof (flow_flowables_spec
                (flowables_left (chains (next_container self w) self)) self
                (_container_index (chains w self)) c (next_container self w))
    as (_ & _ & _ & _ & _ & Hcs & Hci & _).
  destruct (flow_flowables _ self _ c (next_container self w)) as [w2 r].
  cbn [fst snd] in *. rewrite next_container_chain in Hcs, Hci.
  cbn [_containers _container_index] in Hcs, Hci.
  assert (render_containers n self w2
          = render_containers (containers_left (chains w2 self)) self w2) as ->
    by (apply render_containers_enough; unfold containers_left;
        rewrite Hcs, Hci; lia).
  done.
Qed.

(** C1.  [Chain.render] ends normally or raises [EndOfPage] carrying this
    very chain, nothing else.  It raises [EndOfPage] exactly when, during
    the call, a [container.flow(flowable)] raised while the chain was on the
    last of its containers; a flowable is then still unplaced.  So when the
    call ends with every flowable placed, it has ended normally. *)
Theorem C1_page_exhausted_iff (self : nat) (w : World B) :
  ∃ new,
    trace (Chain_render self w).1 = trace w ++ new ∧
    ((Chain_render self w).2 = Raise (EndOfPage self) ↔
       ∃ k i, S k = length (_containers (chains w self)) ∧
              Flowed self k i true ∈ new) ∧
    ((Chain_render self w).2 = Return tt ∨
     (Chain_render self w).2 = Raise (EndOfPage self)) ∧
    ((Chain_render self w).2 = Raise (EndOfPage self) →
       (_flowable_index (chains (Chain_render self w).1 self)
          < length (flowables (chains (Chain_render self w).1 self)))%nat) ∧
    (_flowable_index (chains (Chain_render self w).1 self)
       = length (flowables (chains (Chain_render self w).1 self)) →
     (Chain_render self w).2 = Return tt).
Proof.
  unfold Chain_render.
  destruct (render_containers_spec (containers_left (chains w self)) self w)
    as (new & Ht & _ & Hiff & Hor & Hfl & _ & Hleft).
  exists new. rewrite Hfl. repeat split; try done; try apply Hiff.
  intros Hall. destruct Hor as [|Hr]; [done|].
  specialize (Hleft Hr). lia.
Qed.
End ChainClaim.

(** Three blocks of height 6 and two containers of height 10: the first
    block fits the first container, the second overflows it and goes to the
    second container, the third overflows the second, the last one. *)
Lemma C1_witness :
  trace (@Chain_render object_truth Z (Block object_truth) 0 example_world).1
    = [Flowed 0 0 0 false; Flowed 0 0 1 true;
       Flowed 0 1 1 false; Flowed 0 1 2 true] ∧
  (@Chain_render object_truth Z (Block object_truth) 0 example_world).2
    = Raise (EndOfPage 0).
Proof.
  split; [reflexivity|].
  destruct (@C1_page_exhausted_iff object_truth Z (Block object_truth)
              0%nat example_world) as (new & Ht & Hiff & _).
  apply Hiff. exists 1%nat, 2%nat. split; [reflexivity|].
  change (trace example_world ++ new) with new in Ht. rewrite <- Ht.
  apply list_elem_of_In. vm_compute. tauto.
Defined.

(** ** [ContainerBase.render] *)

(** Induction on a container tree, the children of a node being covered by
    the induction hypothesis. *)
Lemma Tree_induction (P : Tree → Prop) :
  (∀ self own chain children,
     Forall P children → P (Node self own chain children)) →
  ∀ t, P t.
Proof.
  intros HN. fix IH 1. intros [self own chain children]. apply HN.
  induction children as [|c cs IHcs]; constructor; [apply IH | exact IHcs].
Qed.

Section TreeRender.
Context `{Dimension} {B : Type} `{FlowableClass B}.

Lemma extends_refl (w : World B) : extends w w.
Proof. exists []. by rewrite app_nil_r. Qed.

Lemma extends_trans (w1 w2 w3 : World B) :
  extends w1 w2 → extends w2 w3 → extends w1 w3.
Proof.
  intros [n1 H1] [n2 H2]. exists (n1 ++ n2). by rewrite H2, H1, app_assoc.
Qed.

Lemma flow_own_extends (self : nat) (own : list nat) (w : World B) :
  extends w (flow_own self own w).1.
Proof.
  revert w. induction own as [|f own IH]; intros w; cbn [flow_own].
  - apply extends_refl.
  - pose proof (ContainerBase_flow_chains self f w) as [_ Ht].
    destruct (ContainerBase_flow self f w) as [w1 [v|e]]; cbn [fst] in *.
    + eapply extends_trans; [|apply IH]. exists []. by rewrite app_nil_r.
    + exists []. by rewrite app_nil_r.
Qed.

Lemma Chain_render_extends (ch : nat) (w : World B) :
  extends w (Chain_render ch w).1.
Proof.
  destruct (render_containers_spec (containers_left (chains w ch)) ch w)
    as (new & Ht & _). by exists new.
Qed.

Lemma render_own_extends (self : nat) (own : list nat) (chain : option nat)
    (w : World B) (eop : option exn) :
  extends w (render_own self own chain w eop).1.
Proof.
  unfold render_own, reraise. destruct own as [|f own].
  - destruct chain as [ch|].
    + pose proof (Chain_render_extends ch w) as He.
      destruct (Chain_render ch w) as [w1 [v|e]]; cbn [fst] in *.
      * by destruct eop.
      * by destruct (isinstance_EndOfPage e).
    + destruct eop; apply extends_refl.
  - pose proof (flow_own_extends self (f :: own) w) as He.
    destruct (flow_own self (f :: own) w) as [w1 [v|e]]; cbn [fst] in *;
      [by destruct eop | done].
Qed.

(** Once [end_of_page] holds a signal, the container's own part of [render]
    ends in an exception. *)
Lemma render_own_reraises (self : nat) (own : list nat) (chain : option nat)
    (w : World B) (e : exn) :
  raised (render_own self own chain w (Some e)).2 = true.
Proof.
  unfold render_own, reraise. destruct own as [|f own].
  - destruct chain as [ch|]; [|done].
    destruct (Chain_render ch w) as [w1 [v|e']]; [done|].
    by destruct (isinstance_EndOfPage e').
  - by destruct (flow_own self (f :: own) w) as [w1 [v|e']].
Qed.

(** As long as no child lets a plain [EndOfContainer] out, the loop over the
    children is the run that renders every child. *)
Lemma render_children_all (render : Tree → World B → World B * outcome unit)
    (children : list Tree) (w : World B) (eop : option exn) :
  Forall (λ r, r ≠ Raise EndOfContainer)
         (children_outcomes render children w).2 →
  render_children render children w eop =
    ((children_outcomes render children w).1,
     Return (collect_end_of_page (children_outcomes render children w).2 eop)).
Proof.
  revert w eop. induction children as [|c cs IH]; intros w eop;
    cbn [render_children children_outcomes]; [done|].
  destruct (render c w) as [w1 r].
  specialize (IH w1). destruct (children_outcomes render cs w1) as [w2 rs].
  cbn [fst snd] in *. intros [Hr Hrs]%Forall_cons.
  destruct r as [v|[|ch]]; [| done |]; cbn [collect_end_of_page];
    by rewrite IH.
Qed.

(** A call of [render] on a tree first records its own container and only
    adds to the trace. *)
Lemma ContainerBase_render_trace (t : Tree) :
  ∀ w, ∃ new,
    trace (ContainerBase_render t w).1 = trace w ++ Rendered (root t) :: new.
Proof.
  induction t as [self own chain children IH] using Tree_induction.
  intros w. cbn [ContainerBase_render root].
  assert (∀ w0 eop,
            extends w0 (render_children ContainerBase_render children w0 eop).1)
    as Hchildren.
  { induction children as [|c cs IHcs]; intros w0 eop;
      cbn [render_children]; [apply extends_refl|].
    apply Forall_cons in IH as [Hc Hcs].
    destruct (Hc w0) as [newc Hnewc].
    destruct (ContainerBase_render c w0) as [w1 r]; cbn [fst] in *.
    assert (extends w0 w1) as H01 by (by eexists).
    destruct r as [v|e].
    - eapply extends_trans; [exact H01 | by apply IHcs].
    - destruct (isinstance_EndOfPage e); [|done].
      eapply extends_trans; [exact H01 | by apply IHcs]. }
  specialize (Hchildren (log (Rendered self) w) None).
  destruct (render_children ContainerBase_render children
              (log (Rendered self) w) None) as [w1 r]; cbn [fst] in *.
  assert (∃ new, trace w1 = trace w ++ Rendered self :: new) as [new Hnew].
  { destruct Hchildren as [new Hnew]. exists new.
    by rewrite Hnew, log_trace, <- app_assoc. }
  destruct r as [eop|e]; [|by exists new].
  destruct (render_own_extends self own chain w1 eop) as [more Hmore].
  exists (new ++ more). by rewrite Hmore, Hnew, <- app_assoc.
Qed.

(** The run that renders every child records every child, in the order of
    [self.children]. *)
Lemma children_outcomes_trace (children : list Tree) (w : World B) :
  ∃ new,
    trace (children_outcomes ContainerBase_render children w).1
      = trace w ++ new ∧
    ((λ c, Rendered (root c)) <$> children) `sublist_of` new.
Proof.
  revert w. induction children as [|c cs IH]; intros w;
    cbn [children_outcomes].
  - exists []. by rewrite app_nil_r.
  - destruct (ContainerBase_render_trace c w) as [newc Hnewc].
    destruct (ContainerBase_render c w) as [w1 r]; cbn [fst] in *.
    destruct (IH w1) as (news & Hnews & Hsub).
    destruct (children_outcomes ContainerBase_render cs w1) as [w2 rs];
      cbn [fst] in *.
    exists (Rendered (root c) :: newc ++ news). split.
    + by rewrite Hnews, Hnewc, <- app_assoc.
    + rewrite fmap_cons. apply sublist_skip. by apply sublist_inserts_l.
Qed.

(** A child that lets a plain [EndOfContainer] out ends the loop over the
    children there and then. *)
Lemma render_children_stops
    (render : Tree → World B → World B * outcome unit)
    (pre : list Tree) (child : Tree) (post : list Tree) (w : World B)
    (eop : option exn) :
  Forall (λ r, r ≠ Raise EndOfContainer) (children_outcomes render pre w).2 →
  (render child (children_outcomes render pre w).1).2 = Raise EndOfContainer →
  render_children render (pre ++ child :: post) w eop =
    ((render child (children_outcomes render pre w).1).1,
     Raise EndOfContainer).
Proof.
  revert w eop. induction pre as [|c cs IH]; intros w eop;
    cbn [app render_children children_outcomes].
  - cbn [fst]. intros _ Hr. destruct (render child w) as [w1 r].
    cbn [fst snd] in *. by subst r.
  - destruct (render c w) as [w1 r]. specialize (IH w1).
    destruct (children_outcomes render cs w1) as [w2 rs].
    cbn [fst snd] in *. intros [Hr Hrs]%Forall_cons Hchild.
    destruct r as [v|[|ch]]; [| done |]; by apply IH.
Qed.

(** What the container's own part of [render] ends in. *)
Lemma render_own_outcome (self : nat) (own : list nat) (chain : option nat)
    (w : World B) (eop : option exn) :
  (render_own self own chain w eop).2 =
    match own with
    | _ :: _ =>
        match (flow_own self own w).2 with
        | Raise e => Raise e
        | Return _ => raise_if eop
        end
    | [] =>
        match chain with
        | Some ch =>
            match (Chain_render ch w).2 with
            | Raise e => Raise e
            | Return _ => raise_if eop
            end
        | None => raise_if eop
        end
    end.
Proof.
  unfold render_own, reraise, raise_if. destruct own as [|f own].
  - destruct chain as [ch|]; [|by destruct eop].
    destruct (render_containers_spec (containers_left (chains w ch)) ch w)
      as (_ & _ & _ & _ & Hor & _).
    fold (Chain_render ch w) in Hor.
    destruct (Chain_render ch w) as [w1 [v|e]]; cbn [fst snd] in *.
    + by destruct eop.
    + destruct Hor as [[=]|[= ->]]. done.
  - destruct (flow_own self (f :: own) w) as [w1 [v|e]]; cbn [fst snd];
      [by destruct eop | done].
Qed.

(** C6, amended.  When no child's [render] lets a plain [EndOfContainer]
    out (each child ends normally or raises [EndOfPage]), [render] renders
    every child, in the order of [self.children], whatever an elder child
    raised; it then deals with its own flowables or chain in the store the
    last child left, and ends in: the exception of its own flowables when
    one of them raises; else the [EndOfPage] of its own chain when that
    raises; else the last [EndOfPage] the children raised, if any; else a
    normal return.  When a child does let a plain [EndOfContainer] out,
    [render] ends with it at once, in the store that child left: no younger
    sibling is rendered and the own flowables or chain are not dealt
    with. *)
Theorem C6_end_of_page_collected (self : nat) (own : list nat)
    (chain : option nat) :
  (∀ (children : list Tree) (w : World B),
     Forall (λ r, r ≠ Raise EndOfContainer)
            (children_outcomes ContainerBase_render children
                               (log (Rendered self) w)).2 →
     ContainerBase_render (Node self own chain children) w =
       render_own self own chain
         (children_outcomes ContainerBase_render children
                            (log (Rendered self) w)).1
         (collect_end_of_page
            (children_outcomes ContainerBase_render children
                               (log (Rendered self) w)).2 None) ∧
     (∃ new more,
        trace (ContainerBase_render (Node self own chain children) w).1
          = trace w ++ Rendered self :: new ++ more ∧
        ((λ c, Rendered (root c)) <$> children) `sublist_of` new) ∧
     (ContainerBase_render (Node self own chain children) w).2 =
       match own with
       | _ :: _ =>
           match (flow_own self own
                    (children_outcomes ContainerBase_render children
                                       (log (Rendered self) w)).1).2 with
           | Raise e => Raise e
           | Return _ =>
               raise_if (collect_end_of_page
                           (children_outcomes ContainerBase_render children
                              (log (Rendered self) w)).2 None)
           end
       | [] =>
           match chain with
           | Some ch =>
               match (Chain_render ch
                        (children_outcomes ContainerBase_render children
                                           (log (Rendered self) w)).1).2 with
               | Raise e => Raise e
               | Return _ =>
                   raise_if (collect_end_of_page
                               (children_outcomes ContainerBase_render
                                  children (log (Rendered self) w)).2 None)
               end
           | None =>
               raise_if (collect_end_of_page
                           (children_outcomes ContainerBase_render children
                              (log (Rendered self) w)).2 None)
           end
       end) ∧
  (∀ (pre : list Tree) (child : Tree) (post : list Tree) (w : World B),
     Forall (λ r, r ≠ Raise EndOfContainer)
            (children_outcomes ContainerBase_render pre
                               (log (Rendered self) w)).2 →
     (ContainerBase_render child
        (children_outcomes ContainerBase_render pre
                           (log (Rendered self) w)).1).2
       = Raise EndOfContainer →
     ContainerBase_render (Node self own chain (pre ++ child :: post)) w =
       ((ContainerBase_render child
           (children_outcomes ContainerBase_render pre
                              (log (Rendered self) w)).1).1,
        Raise EndOfContainer)).
Proof.
  split.
  - intros children w Hall.
    assert (ContainerBase_render (Node self own chain children) w =
              render_own self own chain
                (children_outcomes ContainerBase_render children
                                   (log (Rendered self) w)).1
                (collect_end_of_page
                   (children_outcomes ContainerBase_render children
                                      (log (Rendered self) w)).2 None))
      as Heq.
    { cbn [ContainerBase_render].
      by rewrite (render_children_all _ _ _ None Hall). }
    split; [exact Heq|]. split.
    + rewrite Heq.
      destruct (children_outcomes_trace children (log (Rendered self) w))
        as (new & Hnew & Hsub).
      destruct (render_own_extends self own chain
                  (children_outcomes ContainerBase_render children
                                     (log (Rendered self) w)).1
                  (collect_end_of_page
                     (children_outcomes ContainerBase_render children
                                        (log (Rendered self) w)).2 None))
        as [more Hmore].
      exists new, more. split; [|done].
      by rewrite Hmore, Hnew, log_trace, <- !app_assoc.
    + rewrite Heq. apply render_own_outcome.
  - intros pre child post w Hall Hchild. cbn [ContainerBase_render].
    by rewrite (render_children_stops _ _ _ _ _ None Hall Hchild).
Qed.
End TreeRender.

(** C6, as stated, fails: the first child holds two blocks of height 6 in a
    container of height 10; the second block overflows, the child's [render]
    lets [EndOfContainer] out, and the parent's [render] ends with it at
    once: the second child is never rendered and nothing is flowed into its
    container. *)
Lemma C6_counterexample :
  (@ContainerBase_render object_truth Z (Block object_truth)
     overflowing_first_child example_world).2 = Raise EndOfContainer ∧
  trace (@ContainerBase_render object_truth Z (Block object_truth)
           overflowing_first_child example_world).1
    = [Rendered 9; Rendered 3] ∧
  offset (containers
            (@ContainerBase_render object_truth Z (Block object_truth)
               overflowing_first_child example_world).1 4%nat) = 0.
Proof. repeat split. Qed.

(** The first child feeds from a chain that runs out of containers and
    raises [EndOfPage]; the second child is rendered all the same, and the
    parent raises the signal afterwards.  In the other tree the first child
    lets [EndOfContainer] out and the parent ends in the store it left. *)
Lemma C6_witness :
  (@ContainerBase_render object_truth Z (Block object_truth)
     chained_first_child example_world).2 = Raise (EndOfPage 0) ∧
  offset (containers
            (@ContainerBase_render object_truth Z (Block object_truth)
               chained_first_child example_world).1 4%nat) = 6 ∧
  @ContainerBase_render object_truth Z (Block object_truth)
     overflowing_first_child example_world
    = ((@ContainerBase_render object_truth Z (Block object_truth)
          (Node 3 [0; 1]%nat None []) (log (Rendered 9) example_world)).1,
       Raise EndOfContainer).
Proof.
  assert (Forall (λ r : outcome unit, r ≠ Raise EndOfContainer)
            (children_outcomes
               (@ContainerBase_render object_truth Z (Block object_truth))
               [Node 0 [] (Some 0%nat) []; Node 4 [3%nat] None []]
               (log (Rendered 9) example_world)).2) as Hall.
  { repeat constructor; discriminate. }
  destruct (@C6_end_of_page_collected object_truth Z (Block object_truth)
              9%nat [] None) as [Hcollect Hstop].
  destruct (Hcollect _ example_world Hall) as (Heq & _ & Hout).
  split; [exact Hout|]. split.
  - unfold chained_first_child. rewrite Heq. reflexivity.
  - exact (Hstop [] (Node 3 [0; 1]%nat None []) [Node 4 [2%nat] None []]
                 example_world (Forall_nil_2 _) eq_refl).
Defined.

(** ** [Document.render] *)

Section DocumentProperties.
Context `{Dimension} {B : Type} `{FlowableClass B} `{DocumentClass B}.

(** More fuel does not change what a loop that ended has done. *)
Lemma render_pages_more (fuel fuel' index : nat) (d : Document B)
    (r : Document B * outcome unit) :
  render_pages fuel index d = Some r → (fuel ≤ fuel')%nat →
  render_pages fuel' index d = Some r.
Proof.
  revert fuel' index d. induction fuel as [|fuel IH]; intros fuel' index d.
  - cbn [render_pages]. destruct (pages d !! index) eqn:Hp; [done|].
    intros Hr _. destruct fuel'; cbn [render_pages]; by rewrite Hp.
  - cbn [render_pages]. destruct (pages d !! index) as [page|] eqn:Hp.
    2:{ intros Hr _. destruct fuel'; cbn [render_pages]; by rewrite Hp. }
    intros Hr Hle. destruct fuel' as [|fuel']; [lia|].
    cbn [render_pages]. rewrite Hp.
    destruct (Page_render page (objects d)) as [w [v|[|ch]]];
      [apply IH; [done | lia] | done | apply IH; [done | lia]].
Qed.

Lemma render_loop_more (fuel fuel' : nat) (d : Document B)
    (r : Document B * outcome Z) :
  render_loop fuel d = Some r → (fuel ≤ fuel')%nat →
  render_loop fuel' d = Some r.
Proof.
  unfold render_loop. intros Hr Hle.
  destruct (render_pages fuel 0 (setup (clear_pages d))) as [r0|] eqn:Hp;
    [|done].
  by rewrite (render_pages_more _ _ _ _ _ Hp Hle).
Qed.

(** When the convergence test fails [k] times and holds then, the loop of
    [render] ends normally, given fuel enough, in the state where the test
    holds: after [k] passes, whatever [k] is. *)
Lemma converge_repasses (k : nat) (d d' : Document B) :
  repasses k d d' →
  has_converged d' = true ∧
  ∃ fuel0, ∀ fuel, (fuel0 ≤ fuel)%nat →
                   converge fuel d = Some (d', Return tt).
Proof.
  induction 1 as [d Hd | k fuel1 d d1 d' n Hd Hpass _ [Hconv [fuel0 IH]]].
  - split; [done|]. exists O. intros fuel _.
    destruct fuel; cbn [converge]; by rewrite Hd.
  - split; [done|]. exists (S (Nat.max fuel0 fuel1)). intros fuel Hle.
    destruct fuel as [|fuel]; [lia|]. cbn [converge]. rewrite Hd.
    rewrite (render_loop_more _ fuel _ _ Hpass) by lia.
    apply IH. lia.
Qed.

(** The loop of [render] ends normally only where the convergence test
    holds. *)
Lemma converge_only_converged (fuel : nat) (d d' : Document B) :
  converge fuel d = Some (d', Return tt) → has_converged d' = true.
Proof.
  revert d. induction fuel as [|fuel IH]; intros d; cbn [converge];
    destruct (has_converged d) eqn:Hd; try congruence.
  destruct (render_loop fuel (remember d)) as [[d1 [n|e]]|]; try done.
  apply IH.
Qed.

(** C2, amended.  [Document.render] has no cap on the number of pagination
    passes and no fatal error of its own: after the first pass it runs one
    more pass each time [has_converged] is false, however often that is.
    Whenever it returns normally, it has saved and written a state in which
    the page count and the reference map equal those of the pass before.
    And when the first pass ends normally and the test then fails [k] times,
    each further pass ending normally, and holds after that, [render] does
    return normally (given fuel enough) after those [k + 1] passes, with the
    cache saved and the output written. *)
Theorem C2_render_until_converged (d : Document B) :
  (∀ fuel dd,
     Document_render fuel d = Some (dd, Return tt) →
     ∃ d', dd = write (save_cache d') ∧ has_converged d' = true) ∧
  (∀ (k fuel1 : nat) (d1 d' : Document B) (n : Z),
     render_loop fuel1 (load_cache d) = Some (d1, Return n) →
     repasses k (set_number_of_pages d1 n) d' →
     has_converged d' = true ∧
     ∃ fuel0, ∀ fuel, (fuel0 ≤ fuel)%nat →
       Document_render fuel d = Some (write (save_cache d'), Return tt) ∧
       written (write (save_cache d')) = true ∧
       cache (write (save_cache d'))
         = Some (number_of_pages d', page_references d')).
Proof.
  split.
  - intros fuel dd. unfold Document_render.
    destruct (render_loop fuel (load_cache d)) as [[d1 [n|e]]|]; try done.
    destruct (converge fuel (set_number_of_pages d1 n)) as [[d2 [[]|e]]|] eqn:Hc;
      try done.
    intros [= <-]. exists d2. split; [done|].
    by apply converge_only_converged in Hc.
  - intros k fuel1 d1 d' n Hfirst Hrep.
    destruct (converge_repasses _ _ _ Hrep) as [Hconv [fuel0 Hloop]].
    split; [done|]. exists (Nat.max fuel0 fuel1). intros fuel Hle.
    unfold Document_render.
    rewrite (render_loop_more _ fuel _ _ Hfirst) by lia.
    rewrite Hloop by lia. done.
Qed.
End DocumentProperties.

(** C2, as stated, fails: the document whose page count grows by one page a
    pass up to twelve pages is rendered in thirteen passes, more than ten,
    and [render] returns normally with the cache saved and the output
    written; no error is reported. *)
Lemma C2_counterexample :
  match @Document_render object_truth Z (Block object_truth) growing
                         100 cold_document with
  | Some (d, Return _) =>
      passes d = 13%nat ∧ (10 < passes d)%nat ∧ written d = true ∧
      cache d = Some (12, ∅)
  | _ => False
  end.
Proof. vm_compute. repeat split; lia. Qed.

(** The document that grows to three pages: the first pass yields one page,
    the test fails three times (1, 2, 3 pages), and holds after the fourth
    pass; [render] returns with three pages saved. *)
Lemma C2_witness :
  ∃ d', has_converged d' = true ∧ number_of_pages d' = 3 ∧
        ∃ fuel0, ∀ fuel, (fuel0 ≤ fuel)%nat →
          @Document_render object_truth Z (Block object_truth) growing3
                           fuel cold_document
            = Some (write (save_cache d'), Return tt).
Proof.
  pose (D := object_truth). pose (F := Block object_truth).
  pose (G := growing3).
  assert (∃ d1 n,
            @render_loop D Z F G 5 (load_cache cold_document)
              = Some (d1, Return n) ∧
            ∃ d', @repasses D Z F G 3 (set_number_of_pages d1 n) d' ∧
                  number_of_pages d' = 3)
    as (d1 & n & Hfirst & d' & Hrep & Hn).
  { eexists _, _. split; [vm_compute; reflexivity|]. eexists. split.
    - eapply (@repasses_again D Z F G 2 5);
        [vm_compute; reflexivity | vm_compute; reflexivity |].
      eapply (@repasses_again D Z F G 1 5);
        [vm_compute; reflexivity | vm_compute; reflexivity |].
      eapply (@repasses_again D Z F G 0 5);
        [vm_compute; reflexivity | vm_compute; reflexivity |].
      apply repasses_done. vm_compute; reflexivity.
    - reflexivity. }
  destruct (proj2 (@C2_render_until_converged D Z F G cold_document)
              3%nat 5%nat d1 d' n Hfirst Hrep) as [Hconv [fuel0 Hrun]].
  exists d'. split; [exact Hconv|].
  split; [exact Hn|]. exists fuel0. intros fuel Hle.
  exact (proj1 (Hrun fuel Hle)).
Defined.

(** * Further properties *)

(** ** Containers *)

Section ExpandingInvariant.
Context `{Dimension}.

(** One [advance] keeps the height of a capped expanding container below
    both its offset and its cap. *)
Lemma expanding_step_below_cap (e : ExpandingContainer) (M h : Z) :
  max_height e = Some M → truthy M = true →
  e_height e ≤ _flowable_offset (e_base e) → e_height e ≤ M →
  ∃ e', (advance (Expanding e) h).1 = Expanding e' ∧
        max_height e' = Some M ∧
        e_height e' ≤ _flowable_offset (e_base e') ∧ e_height e' ≤ M.
Proof.
  intros HM Ht Ho Hc.
  destruct (advance_expanding e h) as (e' & E & Hm & Hoff & Hr & Hh).
  exists e'. rewrite Hr in Hh. rewrite HM in Hr, Hh. cbn [bool_of] in Hh.
  rewrite Ht in Hh. cbn [andb] in Hh.
  split; [done|]. split; [congruence|].
  destruct (Z.ltb_spec M (_flowable_offset (e_base e) + h)); lia.
Qed.

(** X1.  An [ExpandingContainer] fresh from its constructor, with a cap
    [M >= 0] that the truth test takes as set: whatever is advanced, in
    whatever order and whether or not calls raise, its height never exceeds
    the cap, nor the offset. *)
Theorem X1_height_never_exceeds_cap (e : ExpandingContainer) (M : Z)
    (hs : list Z) :
  max_height e = Some M → truthy M = true → 0 ≤ M →
  _flowable_offset (e_base e) = 0 → e_height e = 0 →
  height_of (advance_calls (Expanding e) hs).1 ≤ M ∧
  height_of (advance_calls (Expanding e) hs).1
    ≤ offset (advance_calls (Expanding e) hs).1.
Proof.
  intros HM Ht HM0 Ho Hh.
  assert (e_height e ≤ _flowable_offset (e_base e) ∧ e_height e ≤ M)
    as [Hinv1 Hinv2] by lia.
  clear Ho Hh HM0. revert e HM Hinv1 Hinv2.
  induction hs as [|h hs IH]; intros e HM Hinv1 Hinv2; cbn [advance_calls].
  - cbn [fst height_of]. unfold offset. cbn [base]. lia.
  - destruct (expanding_step_below_cap e M h HM Ht Hinv1 Hinv2)
      as (e1 & E1 & HM1 & H1 & H2).
    destruct (advance (Expanding e) h) as [c1 r]. cbn [fst] in E1. subst c1.
    specialize (IH e1 HM1 H1 H2).
    destruct (advance_calls (Expanding e1) hs). exact IH.
Qed.

(** X2.  An [ExpandingContainer] without cap, fresh from its constructor,
    in any arithmetic and so in binary64: no call of [advance] raises, and
    after any calls its height is its offset, both being the sum of what was
    advanced as the code accumulates it (from zero, one addition after the
    other, each rounded as the arithmetic rounds). *)
Theorem X2_uncapped_height_is_offset {N : Type} `{Arithmetic N}
    (hs : list N) :
  es_height (calls ExpandingContainer_advance_in
                   (mkExpandingState None num_zero num_zero) hs).1
    = es_offset (calls ExpandingContainer_advance_in
                       (mkExpandingState None num_zero num_zero) hs).1 ∧
  es_offset (calls ExpandingContainer_advance_in
                   (mkExpandingState None num_zero num_zero) hs).1
    = accumulate hs ∧
  ∀ n, (n < length hs)%nat →
       (calls ExpandingContainer_advance_in
              (mkExpandingState None num_zero num_zero) hs).2 !! n
         = Some (Return tt).
Proof.
  destruct (expanding_calls_state
              (mkExpandingState None num_zero num_zero) hs) as [Ho _].
  rewrite Ho, expanding_calls_height by (intros j Hj; by apply uncapped_call).
  repeat split. intros n Hn. by apply uncapped_call.
Qed.

(** A bounded container keeps all of its geometry through [advance]. *)
Lemma advance_calls_geometry (b : Container) (hs : list Z) :
  ∃ b', (advance_calls (Bounded b) hs).1 = Bounded b' ∧
        left (c_base b') = left (c_base b) ∧
        width (c_base b') = width (c_base b) ∧
        right (c_base b') = right (c_base b) ∧
        top b' = top b ∧ height b' = height b ∧ bottom b' = bottom b.
Proof.
  revert b. induction hs as [|h hs IH]; intros b; cbn [advance_calls].
  { exists b. done. }
  assert (∃ b1, (advance (Bounded b) h).1 = Bounded b1 ∧
                left (c_base b1) = left (c_base b) ∧
                width (c_base b1) = width (c_base b) ∧
                right (c_base b1) = right (c_base b) ∧
                top b1 = top b ∧ height b1 = height b ∧ bottom b1 = bottom b)
    as (b1 & E1 & H1).
  { unfold advance, Container_advance. destruct (_ <? _); eexists; done. }
  destruct (advance (Bounded b) h) as [c1 r]. cbn [fst] in E1. subst c1.
  destruct (IH b1) as (b2 & E2 & H2).
  destruct (advance_calls (Bounded b1) hs). cbn [fst] in *.
  exists b2. split; [done|]. intuition congruence.
Qed.

(** [ContainerBase.__init__] stores [right] as [left + width]. *)
Lemma ContainerBase_init_right (parent : option container)
    (l w r : option Z) (canvas : Z) (a : ContainerBase) :
  ContainerBase_init parent l w r canvas = Built a →
  right a = left a + width a.
Proof.
  unfold ContainerBase_init.
  repeat match goal with
         | |- context [init_bind ?m _] =>
             destruct m; cbn [init_bind]; try discriminate
         end.
  by intros [= <-].
Qed.

(** X3.  A [Container] that its constructor built, whatever the parent and
    the lengths given, has [right = left + width] and [bottom = top +
    height], and keeps its six lengths and these two equations through any
    calls of [advance], raising or not. *)
Theorem X3_geometry_invariant (parent : option container)
    (l t w h r b : option Z) (canvas : Z) (c : Container) (hs : list Z) :
  Container_init parent l t w h r b canvas = Built c →
  ∃ c', (advance_calls (Bounded c) hs).1 = Bounded c' ∧
        left (c_base c') = left (c_base c) ∧ top c' = top c ∧
        width (c_base c') = width (c_base c) ∧ height c' = height c ∧
        right (c_base c') = left (c_base c') + width (c_base c') ∧
        bottom c' = top c' + height c'.
Proof.
  intros Hc.
  assert (right (c_base c) = left (c_base c) + width (c_base c) ∧
          bottom c = top c + height c) as [Hr Hb].
  { revert Hc. unfold Container_init.
    destruct (ContainerBase_init parent l w r canvas) as [a| |] eqn:Ha;
      cbn [init_bind]; try discriminate.
    apply ContainerBase_init_right in Ha.
    repeat match goal with
           | |- context [init_bind ?m _] =>
               destruct m; cbn [init_bind]; try discriminate
           end.
    intros [= <-]. simpl. split; [exact Ha | reflexivity]. }
  destruct (advance_calls_geometry c hs) as (c' & E & Hl & Hw & Hr' & Ht & Hh & Hb').
  exists c'. repeat split; try done; congruence.
Qed.
End ExpandingInvariant.

Lemma X1_witness :
  height_of (@advance_calls object_truth (expanding_box 50 (Some 10))
               [4; 9; -5; 7; 2]).1 ≤ 10.
Proof.
  apply (@X1_height_never_exceeds_cap object_truth
           (mkExpandingContainer (mkContainerBase 0 50 50 0 0) (Some 10) 0)
           10 [4; 9; -5; 7; 2] eq_refl eq_refl ltac:(lia) eq_refl eq_refl).
Defined.

Lemma X2_witness :
  es_height (calls (@ExpandingContainer_advance_in float binary64)
                   (mkExpandingState None 0%float 0%float) ten_advances).1
    = 0x1.c000000000001p+2%float.
Proof.
  destruct (@X2_uncapped_height_is_offset float binary64 ten_advances)
    as (Hh & Ho & _).
  etransitivity; [exact Hh|]. etransitivity; [exact Ho|].
  vm_compute; reflexivity.
Defined.

Lemma X3_witness :
  ∃ c', (@advance_calls object_truth
           (Bounded (mkContainer (mkContainerBase 1 2 3 0 0) 0 5 5))
           [4; 3]).1 = Bounded c' ∧
        right (c_base c') = 3 ∧ bottom c' = 5.
Proof.
  destruct (@X3_geometry_invariant object_truth (Some (box 200 300))
              (Some 1) (Some 0) (Some 2) (Some 5) (Some 10) (Some 5) 0
              _ [4; 3] eq_refl)
    as (c' & E & Hl & Ht & Hw & Hh & Hr & Hb).
  exists c'. split; [exact E|]. split.
  - rewrite Hr, Hl, Hw. reflexivity.
  - rewrite Hb, Ht, Hh. reflexivity.
Defined.

(** ** Construction without a parent *)

(** X4.  Constructing a [Container] with [parent = None] raises
    [AttributeError] as soon as, on the horizontal axis, neither the width
    nor the right edge is given, since only then is [parent.width] read;
    the call builds the container exactly when on each axis the size or the
    far edge is given and no far edge is given alone with a false truth
    value.  What is built has the same lengths as under a parent. *)
Theorem X4_parentless_construction `{Dimension} (l t w h r b : option Z)
    (canvas : Z) :
  (w = None → r = None →
   Container_init None l t w h r b canvas = AttributeError) ∧
  is_Built (Container_init None l t w h r b canvas)
    = axis_built l w r && negb (is_None w && is_None r) &&
      (axis_built t h b && negb (is_None h && is_None b)) ∧
  ∀ c, Container_init None l t w h r b canvas = Built c →
       left (c_base c) = near_edge l w r ∧
       width (c_base c) = size_along 0 l w r ∧
       right (c_base c) = left (c_base c) + width (c_base c) ∧
       top c = near_edge t h b ∧
       height c = size_along 0 t h b ∧
       bottom c = top c + height c.
Proof.
  unfold Container_init, ContainerBase_init, axis_built, near_edge,
    size_along, py_and, py_sub, bool_of, parent_width, parent_height.
  split; [intros -> ->; by destruct l|].
  destruct l as [l|], w as [w|], r as [r|]; simpl;
    try destruct (truthy r); simpl;
    (destruct t as [t|], h as [h|], b as [b|]; simpl;
     try destruct (truthy b); simpl;
     (split; [reflexivity | intros c [=]; subst c; simpl; repeat split])).
Qed.

Lemma X4_witness :
  @Container_init object_truth None (Some 3) None None (Some 40) None None 0
    = AttributeError ∧
  @Container_init object_truth None None (Some 0) (Some 20) None (Some 50)
                  (Some 70) 0
    = Built (mkContainer (mkContainerBase 30 20 50 0 0) 0 70 70).
Proof.
  destruct (@X4_parentless_construction object_truth (Some 3) None None
              (Some 40) None None 0) as (Herr & _ & _).
  split; [exact (Herr eq_refl eq_refl) | reflexivity].
Defined.

(** X5.  [Page.__init__] always builds its container, without a parent:
    the page sits at the origin, is as wide and as high as the paper in
    portrait orientation, and has the two lengths of the paper swapped in
    any other orientation; its right and bottom edges are its width and
    height, and its flowable offset starts at 0. *)
Theorem X5_page_geometry `{Dimension} (paper : Paper) (o : Orientation)
    (canvas : Z) :
  ∃ c, Page_init paper o canvas = Built c ∧
       left (c_base c) = 0 ∧ top c = 0 ∧
       right (c_base c) = width (c_base c) ∧ bottom c = height c ∧
       _flowable_offset (c_base c) = 0 ∧
       (width (c_base c), height c) =
         match o with
         | PORTRAIT => (paper_width paper, paper_height paper)
         | LANDSCAPE => (paper_height paper, paper_width paper)
         end ∧
       Page_init (mkPaper (paper_height paper) (paper_width paper))
                 match o with
                 | PORTRAIT => LANDSCAPE
                 | LANDSCAPE => PORTRAIT
                 end canvas = Built c.
Proof.
  destruct o; eexists; (split; [reflexivity|]); simpl;
    repeat split; try reflexivity; try lia.
Qed.

(** ** [Flowable.flow]: when it raises *)

Section FlowRaises.
Context `{Dimension} {B : Type} `{FlowableClass B}.

Lemma flow_content_raised (self : Flowable B) (c : container) (start : Z) :
  raised (flow_content self c start).2 = raised (render self c).2 ∧
  (raised (render self c).2 = false →
   resume (flow_content self c start).1.1 = false ∧
   offset (flow_content self c start).1.2
     = offset (render self c).1.2 + space_below (render self c).1.1).
Proof.
  unfold flow_content. destruct (render self c) as [[self1 c1] [v|e]];
    cbn [fst snd raised]; [|done].
  pose proof (advance_offset c1 (space_below (set_resume self1 false))) as Ho.
  destruct (advance c1 (space_below (set_resume self1 false))) as [c2 r2].
  cbn [fst snd raised] in *. split; [done|]. intros _. split; [done|].
  exact Ho.
Qed.

(** X6.  [Flowable.flow] raises only for the space above or for the
    content: a resumed flowable raises exactly when its [render] does, a
    fresh one exactly when the advance by [space_above] or else its
    [render] does.  The advance by [space_below] never makes [flow] raise,
    though it moves the offset by [space_below] even beyond the container's
    end; and whenever [flow] returns, the flowable's [resume] flag is
    false. *)
Theorem X6_flow_raises_iff (self : Flowable B) (c : container) :
  raised (Flowable_flow self c).2 =
    (if resume self then raised (render self c).2
     else raised (advance c (space_above self)).2 ||
          raised (render (set_resume self true)
                         (advance c (space_above self)).1).2) ∧
  (raised (Flowable_flow self c).2 = false →
   resume (Flowable_flow self c).1.1 = false ∧
   ∃ self1 c1,
     (render (if resume self then self else set_resume self true)
             (if resume self then c else (advance c (space_above self)).1)).1
       = (self1, c1) ∧
     offset (Flowable_flow self c).1.2 = offset c1 + space_below self1).
Proof.
  unfold Flowable_flow. destruct (resume self); cbn [negb].
  - destruct (flow_content_raised self c (cursor c)) as [Hr Hok].
    split; [done|]. intros Hno. rewrite Hr in Hno.
    destruct (Hok Hno) as [Hres Hoff]. split; [done|].
    destruct (render self c) as [[self1 c1] r]. by exists self1, c1.
  - change (space_above (set_resume self true)) with (space_above self).
    destruct (advance c (space_above self)) as [c1 [v|e]];
      cbn [fst snd raised orb]; [|done].
    destruct (flow_content_raised (set_resume self true) c1 (cursor c))
      as [Hr Hok].
    split; [done|]. intros Hno. rewrite Hr in Hno.
    destruct (Hok Hno) as [Hres Hoff]. split; [done|].
    destruct (render (set_resume self true) c1) as [[self1 c2] r].
    by exists self1, c2.
Qed.
End FlowRaises.

(** A block of height 3 with 20 below it fits a container of height 10;
    the space below runs over the end and [flow] returns all the same. *)
Lemma X6_witness :
  (@Flowable_flow object_truth Z (Block object_truth)
                  (mkFlowable false 2 20 3) (box 50 10)).2 = Return (-25) ∧
  resume (@Flowable_flow object_truth Z (Block object_truth)
                         (mkFlowable false 2 20 3) (box 50 10)).1.1 = false.
Proof.
  destruct (@X6_flow_raises_iff object_truth Z (Block object_truth)
              (mkFlowable false 2 20 3) (box 50 10)) as [_ Hok].
  split; [reflexivity|]. exact (proj1 (Hok eq_refl)).
Defined.

(** ** Counters *)

(** Reading a counter property [n] times from the state [s] yields
    [s + 1], ..., [s + n]. *)
Lemma read_times_counter (read : Z → Z * Z) (n : nat) (s : Z) :
  (∀ x, read x = (x + 1, x + 1)) →
  (read_times read n s).1 = s + Z.of_nat n ∧
  (read_times read n s).2 = (λ j, s + Z.of_nat j) <$> seq 1 n.
Proof.
  intros Hread. revert s. induction n as [|n IH]; intros s;
    cbn [read_times].
  - cbn. split; [lia | done].
  - rewrite Hread. destruct (IH (s + 1)) as [IH1 IH2].
    destruct (read_times read n (s + 1)) as [s2 vs]. cbn [fst snd] in *.
    split; [lia|].
    change (seq 1 (S n)) with (1%nat :: seq 2 n). rewrite fmap_cons.
    f_equal; try lia.
    rewrite IH2, <- (fmap_S_seq 1 n), <- list_fmap_compose.
    apply list_fmap_ext. intros _ j _. cbn. lia.
Qed.

(** X7.  [Document.unique_id], read [n] times on a new document, yields
    1, 2, ..., [n]: no identifier is handed out twice, and each is greater
    than all handed out before. *)
Theorem X7_unique_ids (n : nat) :
  (read_times unique_id n 0).2 = Z.of_nat <$> seq 1 n ∧
  NoDup (read_times unique_id n 0).2 ∧
  (read_times unique_id n 0).1 = Z.of_nat n.
Proof.
  destruct (read_times_counter unique_id n 0 (λ x, eq_refl)) as [H1 H2].
  assert ((read_times unique_id n 0).2 = Z.of_nat <$> seq 1 n) as Hv.
  { rewrite H2. apply list_fmap_ext. intros _ j _. lia. }
  rewrite H1, Hv. split; [done|]. split; [|lia].
  apply NoDup_fmap_2; [apply _ | apply NoDup_seq].
Qed.

(** X8.  [FootnoteContainer.next_number], read [n] times on a new footnote
    container, numbers the footnotes 1, 2, ..., [n]. *)
Theorem X8_footnote_numbers (n : nat) :
  (read_times next_number n 0).2 = Z.of_nat <$> seq 1 n.
Proof.
  destruct (read_times_counter next_number n 0 (λ x, eq_refl)) as [_ H2].
  rewrite H2. apply list_fmap_ext. intros _ j _. lia.
Qed.

(** ** The cache and the passes of [Document.render] *)

Section CacheAndPasses.
Context `{Dimension} {B : Type} `{FlowableClass B} `{DocumentClass B}.

Lemma render_pages_previous (fuel index : nat) (d d' : Document B)
    (r : outcome unit) :
  (∀ ch, keeps_previous (add_to_chain ch)) →
  render_pages fuel index d = Some (d', r) →
  _previous_number_of_pages d' = _previous_number_of_pages d ∧
  _previous_page_references d' = _previous_page_references d.
Proof.
  intros Hadd. revert index d.
  induction fuel as [|fuel IH]; intros index d; cbn [render_pages];
    destruct (pages d !! index) as [page|]; try (by intros [= <- <-]);
    try done.
  destruct (Page_render page (objects d)) as [w [v|[|ch]]].
  - intros Hr. by destruct (IH _ _ Hr).
  - by intros [= <- <-].
  - intros Hr. destruct (IH _ _ Hr) as [-> ->].
    by destruct (Hadd ch (with_objects d w)).
Qed.

Lemma render_loop_previous (fuel : nat) (d d' : Document B) (r : outcome Z) :
  keeps_previous setup → (∀ ch, keeps_previous (add_to_chain ch)) →
  render_loop fuel d = Some (d', r) →
  _previous_number_of_pages d' = _previous_number_of_pages d ∧
  _previous_page_references d' = _previous_page_references d ∧
  ∀ n, r = Return n → n = Z.of_nat (length (pages d')).
Proof.
  intros Hsetup Hadd. unfold render_loop.
  destruct (render_pages fuel 0 (setup (clear_pages d))) as [[d1 [v|e]]|] eqn:Hp;
    [| |done]; intros [= <- <-];
    destruct (render_pages_previous _ _ _ _ _ Hadd Hp) as [-> ->];
    destruct (Hsetup (clear_pages d)) as [-> ->];
    repeat split; try done; by intros n [= <-].
Qed.

(** X10.  With a document class whose [setup] and [add_to_chain] leave the
    record of the previous pass alone: when no cache file can be read, the
    convergence test fails after the first pass, whatever that pass laid
    out, because the page count is compared with -1; so [render] runs at
    least one further pass. *)
Theorem X10_cold_start_second_pass (fuel : nat) (d d1 : Document B) (n : Z) :
  keeps_previous setup → (∀ ch, keeps_previous (add_to_chain ch)) →
  cache d = None →
  render_loop fuel (load_cache d) = Some (d1, Return n) →
  has_converged (set_number_of_pages d1 n) = false ∧
  ∀ k d', repasses k (set_number_of_pages d1 n) d' → (1 ≤ k)%nat.
Proof.
  intros Hsetup Hadd Hcache Hpass.
  destruct (render_loop_previous _ _ _ _ Hsetup Hadd Hpass) as (Hn & _ & Hlen).
  assert (has_converged (set_number_of_pages d1 n) = false) as Hno.
  { unfold has_converged, set_number_of_pages. cbn.
    rewrite Hn. unfold load_cache. rewrite Hcache. cbn.
    rewrite (Hlen n eq_refl). rewrite bool_decide_eq_false_2 by lia. done. }
  split; [done|]. intros k d' Hrep. inversion Hrep; subst; [congruence | lia].
Qed.

(** X11.  With such a document class: when the cache file holds the page
    count and the references that the first pass comes to again, the
    convergence test holds after that one pass, and [render] returns after
    it, given the fuel of the pass or more, with the same pair saved
    again. *)
Theorem X11_warm_start_single_pass (fuel fuel' : nat) (d d1 : Document B)
    (n : Z) (refs : gmap string Z) :
  keeps_previous setup → (∀ ch, keeps_previous (add_to_chain ch)) →
  cache d = Some (n, refs) →
  render_loop fuel (load_cache d) = Some (d1, Return n) →
  page_references d1 = refs →
  (fuel ≤ fuel')%nat →
  Document_render fuel' d
    = Some (write (save_cache (set_number_of_pages d1 n)), Return tt) ∧
  cache (write (save_cache (set_number_of_pages d1 n))) = Some (n, refs).
Proof.
  intros Hsetup Hadd Hcache Hpass Hrefs Hle.
  destruct (render_loop_previous _ _ _ _ Hsetup Hadd Hpass) as (Hn & Hr & _).
  assert (has_converged (set_number_of_pages d1 n) = true) as Hyes.
  { unfold has_converged, set_number_of_pages. cbn.
    rewrite Hn, Hr, Hrefs. unfold load_cache. rewrite Hcache. cbn.
    by rewrite !bool_decide_eq_true_2. }
  split.
  - unfold Document_render. rewrite (render_loop_more _ fuel' _ _ Hpass Hle).
    destruct fuel'; cbn [converge]; by rewrite Hyes.
  - cbn. by rewrite Hrefs.
Qed.

Lemma converge_counts_pages (fuel : nat) (d d' : Document B) :
  number_of_pages d = Z.of_nat (length (pages d)) →
  converge fuel d = Some (d', Return tt) →
  number_of_pages d' = Z.of_nat (length (pages d')).
Proof.
  revert d. induction fuel as [|fuel IH]; intros d Hd; cbn [converge];
    destruct (has_converged d); try (by intros [= <-]); try done.
  unfold render_loop.
  destruct (render_pages fuel 0 (setup (clear_pages (remember d))))
    as [[d1 [v|e]]|]; try done.
  apply IH. done.
Qed.

(** X12.  Whenever [Document.render] returns, the cache holds the page
    count and the reference map of the document as it stands, the page
    count is the number of pages the last pass laid out (so it is not
    negative), and the output is written. *)
Theorem X12_saved_pair (fuel : nat) (d dd : Document B) :
  Document_render fuel d = Some (dd, Return tt) →
  cache dd = Some (number_of_pages dd, page_references dd) ∧
  number_of_pages dd = Z.of_nat (length (pages dd)) ∧
  0 ≤ number_of_pages dd ∧
  written dd = true.
Proof.
  unfold Document_render, render_loop.
  destruct (render_pages fuel 0 (setup (clear_pages (load_cache d))))
    as [[d1 [v|e]]|]; try done.
  destruct (converge fuel _) as [[d2 [[]|e]]|] eqn:Hc; try done.
  intros [= <-]. apply converge_counts_pages in Hc; [|done].
  cbn. repeat split; try done. lia.
Qed.
End CacheAndPasses.

Lemma X10_witness :
  ∃ d1 n, @render_loop object_truth Z (Block object_truth) growing3 5
            (load_cache cold_document) = Some (d1, Return n) ∧
          has_converged (set_number_of_pages d1 n) = false.
Proof.
  eexists _, _. split; [vm_compute; reflexivity|].
  refine (proj1 (@X10_cold_start_second_pass object_truth Z
                   (Block object_truth) growing3 5 cold_document _ _
                   _ _ eq_refl _)).
  - intros d. split; reflexivity.
  - intros ch d. split; reflexivity.
  - vm_compute; reflexivity.
Defined.

Lemma X11_witness :
  ∃ dd, @Document_render object_truth Z (Block object_truth) growing3 9
          (mkDocument 0 ∅ 0 ∅ [] example_world (Some (3, ∅)) false 0)
          = Some (dd, Return tt) ∧
        cache dd = Some (3, ∅).
Proof.
  pose (d := mkDocument 0 ∅ 0 ∅ [] example_world (Some (3, ∅)) false 0
             : Document Z).
  assert (∃ d1, @render_loop object_truth Z (Block object_truth) growing3 5
                  (load_cache d) = Some (d1, Return 3) ∧
                page_references d1 = ∅) as (d1 & Hpass & Hrefs).
  { eexists. split; [vm_compute; reflexivity | reflexivity]. }
  assert (@keeps_previous Z (@setup Z growing3)) as Hsetup
    by (intros d0; split; reflexivity).
  assert (∀ ch, @keeps_previous Z (@add_to_chain Z growing3 ch)) as Hadd
    by (intros ch d0; split; reflexivity).
  destruct (@X11_warm_start_single_pass object_truth Z (Block object_truth)
              growing3 5 9 d d1 3 ∅ Hsetup Hadd eq_refl Hpass Hrefs
              ltac:(lia)) as [Hrun Hcache].
  eexists. split; [exact Hrun | exact Hcache].
Defined.

Lemma X12_witness :
  ∃ dd, @Document_render object_truth Z (Block object_truth) growing3 9
          cold_document = Some (dd, Return tt) ∧
        number_of_pages dd = 3 ∧ written dd = true.
Proof.
  eexists. split; [vm_compute; reflexivity|].
  match goal with
  | |- number_of_pages ?dd = _ ∧ _ =>
      destruct (@X12_saved_pair object_truth Z (Block object_truth) growing3
                  9 cold_document dd) as (_ & Hn & _ & Hw)
  end.
  - vm_compute; reflexivity.
  - split; [reflexivity | exact Hw].
Defined.

(** ** More on [ContainerBase.render] and [Chain.render] *)

Section ChainOrder.
Context `{Dimension} {B : Type} `{FlowableClass B}.

Lemma flow_own_chains (self : nat) (own : list nat) (w : World B) :
  chains (flow_own self own w).1 = chains w ∧
  trace (flow_own self own w).1 = trace w.
Proof.
  revert w. induction own as [|f own IH]; intros w; cbn [flow_own]; [done|].
  pose proof (ContainerBase_flow_chains self f w) as [Hc Ht].
  destruct (ContainerBase_flow self f w) as [w1 [v|e]]; cbn [fst] in *;
    [|done].
  destruct (IH w1) as [-> ->]. done.
Qed.

(** X13.  A container that holds flowables of its own never renders the
    chain it is bound to: once its children are rendered, [render] flows its
    own flowables only, leaves every chain as it stands and has no chain
    flow a flowable. *)
Theorem X13_own_flowables_shadow_chain (self f : nat) (own : list nat)
    (chain : option nat) (children : list Tree) (w w1 : World B)
    (eop : option exn) :
  render_children ContainerBase_render children (log (Rendered self) w) None
    = (w1, Return eop) →
  chains (ContainerBase_render (Node self (f :: own) chain children) w).1
    = chains w1 ∧
  trace (ContainerBase_render (Node self (f :: own) chain children) w).1
    = trace w1.
Proof.
  intros Hch. cbn [ContainerBase_render]. rewrite Hch.
  unfold render_own, reraise.
  destruct (flow_own_chains self (f :: own) w1) as [Hc Ht].
  destruct (flow_own self (f :: own) w1) as [w2 [v|e]]; cbn [fst] in *;
    [by destruct eop | done].
Qed.

Lemma in_turn_app (self k i : nat) (a b : list event) :
  in_turn self k i (a ++ b) =
    in_turn self k i a &&
    in_turn self (turn_after k i a).1 (turn_after k i a).2 b.
Proof.
  revert k i. induction a as [|[c|ch k' i' o] a IH]; intros k i;
    cbn [app in_turn turn_after]; [done | done |].
  rewrite IH. by rewrite andb_assoc.
Qed.

Lemma turn_after_app (k i : nat) (a b : list event) :
  turn_after k i (a ++ b) =
    turn_after (turn_after k i a).1 (turn_after k i a).2 b.
Proof.
  revert k i. induction a as [|[c|ch k' i' o] a IH]; intros k i;
    cbn [app turn_after]; [done | apply IH | apply IH].
Qed.

(** The inner loop flows in turn, and where it leaves the flowable index. *)
Lemma flow_flowables_turn (n self k c : nat) (w : World B) :
  ∃ new,
    trace (flow_flowables n self k c w).1 = trace w ++ new ∧
    in_turn self k (_flowable_index (chains w self)) new = true ∧
    turn_after k (_flowable_index (chains w self)) new
      = (if raised (flow_flowables n self k c w).2 then S k else k,
         _flowable_index (chains (flow_flowables n self k c w).1 self)) ∧
    (_flowable_index (chains w self)
       ≤ _flowable_index (chains (flow_flowables n self k c w).1 self))%nat ∧
    (_flowable_index (chains (flow_flowables n self k c w).1 self)
       ≤ Nat.max (_flowable_index (chains w self))
                 (length (flowables (chains w self))))%nat ∧
    (raised (flow_flowables n self k c w).2 = false →
     (flowables_left (chains w self) ≤ n)%nat →
     (length (flowables (chains w self))
        ≤ _flowable_index (chains (flow_flowables n self k c w).1 self))%nat).
Proof.
  revert w. induction n as [|n IH]; intros w; cbn [flow_flowables].
  { exists []. rewrite app_nil_r. cbn. unfold flowables_left.
    repeat split; try done; lia. }
  destruct (flowables (chains w self) !! _flowable_index (chains w self))
    as [f|] eqn:Hf.
  2:{ exists []. rewrite app_nil_r. cbn.
      apply lookup_ge_None_1 in Hf. repeat split; try done; lia. }
  pose proof (lookup_lt_Some _ _ _ Hf) as Hlt.
  pose proof (ContainerBase_flow_chains c f w) as [Hch Htr].
  pose proof (flow_step_chain self k c f w) as Hstep.
  destruct (ContainerBase_flow c f w) as [w1 [v|e]]; cbn [fst snd raised] in *.
  - specialize (Hstep false).
    destruct (IH (next_flowable self
                    (log (Flowed self k (_flowable_index (chains w self)) false)
                         w1)))
      as (new & Ht & Hin & Hafter & Hge & Hle & Hall).
    rewrite Hstep in Hin, Hafter, Hge, Hle, Hall.
    cbn [flowables _flowable_index] in Hin, Hafter, Hge, Hle, Hall.
    exists (Flowed self k (_flowable_index (chains w self)) false :: new).
    rewrite Ht, next_flowable_trace, log_trace, Htr, <- app_assoc.
    cbn [app in_turn turn_after]. rewrite !Nat.eqb_refl. cbn [andb].
    repeat split; try done; try lia.
    intros Hno Hn. apply Hall; [done|]. unfold flowables_left in *.
    cbn [flowables _flowable_index]. lia.
  - exists [Flowed self k (_flowable_index (chains w self)) true].
    rewrite log_trace, log_chains, Htr, Hch.
    cbn [in_turn turn_after]. rewrite !Nat.eqb_refl. cbn [andb].
    repeat split; try done; lia.
Qed.

Lemma flow_flowables_none (n self k c : nat) (w : World B) :
  (length (flowables (chains w self)) ≤ _flowable_index (chains w self))%nat →
  flow_flowables n self k c w = (w, Return tt).
Proof.
  intros Hle. destruct n; cbn [flow_flowables]; [done|].
  by rewrite lookup_ge_None_2.
Qed.

(** With no flowable left, the outer loop flows nothing. *)
Lemma render_containers_idle (n self : nat) (w : World B) :
  (length (flowables (chains w self)) ≤ _flowable_index (chains w self))%nat →
  trace (render_containers n self w).1 = trace w ∧
  _flowable_index (chains (render_containers n self w).1 self)
    = _flowable_index (chains w self) ∧
  containers (render_containers n self w).1 = containers w ∧
  (render_containers n self w).2 = Return tt.
Proof.
  revert w. induction n as [|n IH]; intros w Hle; cbn [render_containers];
    [done|].
  destruct (_containers (chains w self) !! _container_index (chains w self));
    [|done].
  rewrite flow_flowables_none
    by (rewrite next_container_chain; cbn [flowables _flowable_index]; lia).
  destruct (IH (next_container self w)) as (Ht & Hi & Hc & Hr).
  { rewrite next_container_chain. cbn [flowables _flowable_index]. lia. }
  rewrite next_container_chain in Hi. cbn [_flowable_index] in Hi.
  done.
Qed.

(** The outer loop flows in turn. *)
Lemma render_containers_turn (n self : nat) (w : World B) :
  ∃ new,
    trace (render_containers n self w).1 = trace w ++ new ∧
    in_turn self (_container_index (chains w self))
            (_flowable_index (chains w self)) new = true ∧
    _flowable_index (chains (render_containers n self w).1 self)
      = (turn_after (_container_index (chains w self))
                    (_flowable_index (chains w self)) new).2 ∧
    (_flowable_index (chains w self)
       ≤ _flowable_index (chains (render_containers n self w).1 self))%nat ∧
    (_flowable_index (chains (render_containers n self w).1 self)
       ≤ Nat.max (_flowable_index (chains w self))
                 (length (flowables (chains w self))))%nat.
Proof.
  revert w. induction n as [|n IH]; intros w; cbn [render_containers].
  { exists []. rewrite app_nil_r. cbn. repeat split; try done; lia. }
  destruct (_containers (chains w self) !! _container_index (chains w self))
    as [c|] eqn:Hc.
  2:{ exists []. rewrite app_nil_r. cbn. repeat split; try done; lia. }
  pose proof (flow_flowables_turn
                (flowables_left (chains (next_container self w) self)) self
                (_container_index (chains w self)) c (next_container self w))
    as (newi & Hti & Hini & Hafter & Hge & Hle & Hall).
  pose proof (flow_flowables_spec
                (flowables_left (chains (next_container self w) self)) self
                (_container_index (chains w self)) c (next_container self w))
    as (_ & _ & _ & _ & Hfl & Hcs & Hci & _).
  destruct (flow_flowables _ self _ c (next_container self w)) as [w2 r].
  cbn [fst snd] in *.
  rewrite next_container_chain in Hini, Hafter, Hge, Hle, Hall, Hfl, Hcs, Hci.
  rewrite next_container_trace in Hti.
  cbn [flowables _containers _container_index _flowable_index]
    in Hini, Hafter, Hge, Hle, Hall, Hfl, Hcs, Hci.
  assert (∃ new,
            trace (render_containers n self w2).1 = trace w ++ new ∧
            in_turn self (_container_index (chains w self))
                    (_flowable_index (chains w self)) new = true ∧
            _flowable_index (chains (render_containers n self w2).1 self)
              = (turn_after (_container_index (chains w self))
                            (_flowable_index (chains w self)) new).2 ∧
            (_flowable_index (chains w self)
               ≤ _flowable_index
                   (chains (render_containers n self w2).1 self))%nat ∧
            (_flowable_index (chains (render_containers n self w2).1 self)
               ≤ Nat.max (_flowable_index (chains w self))
                         (length (flowables (chains w self))))%nat) as Hrec.
  { destruct r as [v|e]; cbn [raised] in *.
    - destruct (render_containers_idle n self w2) as (Ht & Hi & _ & _).
      { rewrite Hfl. apply Hall; [done | lia]. }
      exists newi. rewrite Ht, Hi, Hafter. cbn [snd]. done.
    - destruct (IH w2) as (newr & Htr & Hinr & Hidx & Hger & Hler).
      rewrite Hci in Hinr, Hidx. rewrite Hfl in Hler.
      exists (newi ++ newr). rewrite Htr, Hti, app_assoc.
      rewrite in_turn_app, turn_after_app, Hini, Hafter. cbn [fst snd andb].
      repeat split; try done; lia. }
  destruct r as [v|e]; [exact Hrec|].
  destruct (_ <? _); [|exact Hrec].
  exists newi. cbn [fst snd raised] in *. rewrite Hafter. cbn [snd].
  done.
Qed.

(** With a bound that is enough, the outer loop leaves the container index
    at the end of the containers. *)
Lemma render_containers_index (n self : nat) (w : World B) :
  (containers_left (chains w self) ≤ n)%nat →
  _container_index (chains (render_containers n self w).1 self)
    = Nat.max (_container_index (chains w self))
              (length (_containers (chains w self))).
Proof.
  unfold containers_left. revert w.
  induction n as [|n IH]; intros w Hn; cbn [render_containers]; [cbn; lia|].
  destruct (_containers (chains w self) !! _container_index (chains w self))
    as [c|] eqn:Hc.
  2:{ apply lookup_ge_None_1 in Hc. cbn. lia. }
  pose proof (lookup_lt_Some _ _ _ Hc) as Hlt.
  pose proof (flow_flowables_spec
                (flowables_left (chains (next_container self w) self)) self
                (_container_index (chains w self)) c (next_container self w))
    as (_ & _ & _ & _ & _ & Hcs & Hci & _).
  destruct (flow_flowables _ self _ c (next_container self w)) as [w2 r].
  cbn [fst snd] in *. rewrite next_container_chain in Hcs, Hci.
  cbn [_containers _container_index] in Hcs, Hci.
  assert (_container_index (chains (render_containers n self w2).1 self)
          = Nat.max (_container_index (chains w self))
                    (length (_containers (chains w self)))) as Hrec.
  { rewrite IH by (rewrite Hcs, Hci; lia). rewrite Hcs, Hci. lia. }
  destruct r as [v|e]; [exact Hrec|].
  rewrite Hcs, Hci.
  destruct (Z.ltb_spec
              (Z.of_nat (length (_containers (chains w self))) - 1)
              (Z.of_nat (S (_container_index (chains w self)))));
    [|exact Hrec].
  cbn [fst]. rewrite Hci. lia.
Qed.

(** X14.  [Chain.render] flows strictly in turn: it starts with the
    flowable and the container its two indices stand at, after a flow that
    returned it flows the next flowable into the same container, after a
    flow that raised it flows the same flowable into the next container,
    and it flows nothing else; no flowable is skipped or flowed again once
    placed.  The flowable index ends where these flows lead. *)
Theorem X14_flows_in_turn (self : nat) (w : World B) :
  ∃ new,
    trace (Chain_render self w).1 = trace w ++ new ∧
    in_turn self (_container_index (chains w self))
            (_flowable_index (chains w self)) new = true ∧
    _flowable_index (chains (Chain_render self w).1 self)
      = (turn_after (_container_index (chains w self))
                    (_flowable_index (chains w self)) new).2.
Proof.
  destruct (render_containers_turn (containers_left (chains w self)) self w)
    as (new & Ht & Hin & Hidx & _). by exists new.
Qed.

(** X15.  After [Chain.render], however it ended, the container index
    stands at the end of the containers (every container is used up, even
    when the flowables ran out in the first one), the flowable index has
    not gone back nor beyond the end of the flowables, and the two lists are
    as they were.  So a second call, with no container added in between,
    does nothing and returns normally, even after [EndOfPage] and with
    flowables still to place. *)
Theorem X15_containers_used_up (self : nat) (w : World B) :
  _container_index (chains (Chain_render self w).1 self)
    = Nat.max (_container_index (chains w self))
              (length (_containers (chains w self))) ∧
  (_flowable_index (chains w self)
     ≤ _flowable_index (chains (Chain_render self w).1 self))%nat ∧
  (_flowable_index (chains (Chain_render self w).1 self)
     ≤ Nat.max (_flowable_index (chains w self))
               (length (flowables (chains w self))))%nat ∧
  flowables (chains (Chain_render self w).1 self) = flowables (chains w self) ∧
  _containers (chains (Chain_render self w).1 self)
    = _containers (chains w self) ∧
  Chain_render self (Chain_render self w).1
    = ((Chain_render self w).1, Return tt).
Proof.
  pose proof (render_containers_index (containers_left (chains w self)) self w
                ltac:(lia)) as Hidx.
  destruct (render_containers_turn (containers_left (chains w self)) self w)
    as (_ & _ & _ & _ & Hge & Hle).
  destruct (render_containers_spec (containers_left (chains w self)) self w)
    as (_ & _ & _ & _ & _ & Hfl & Hcs & _).
  unfold Chain_render at 1 2 3 4 5. repeat split; try done.
  unfold Chain_render at 1. fold (Chain_render self w) in *.
  unfold containers_left. rewrite Hidx, Hcs.
  replace (_ - _)%nat with O by lia. done.
Qed.
End ChainOrder.

Section ChainResume.
Context `{Dimension} {B : Type} `{FlowableClass B}.

Lemma flow_flowables_extends (n self k c : nat) (w : World B) :
  extends w (flow_flowables n self k c w).1.
Proof.
  destruct (flow_flowables_spec n self k c w) as (new & Ht & _). by exists new.
Qed.

Lemma render_containers_extends (n self : nat) (w : World B) :
  extends w (render_containers n self w).1.
Proof.
  destruct (render_containers_spec n self w) as (new & Ht & _). by exists new.
Qed.

(** A chain that stands at a container and at a flowable flows at least
    once. *)
Lemma Chain_render_starts (self c f : nat) (w : World B) :
  _containers (chains w self) !! _container_index (chains w self) = Some c →
  flowables (chains w self) !! _flowable_index (chains w self) = Some f →
  ∃ ev more, trace (Chain_render self w).1 = trace w ++ ev :: more.
Proof.
  intros Hc Hf. unfold Chain_render, containers_left.
  pose proof (lookup_lt_Some _ _ _ Hc) as Hclt.
  pose proof (lookup_lt_Some _ _ _ Hf) as Hflt.
  destruct (length (_containers (chains w self))
            - _container_index (chains w self))%nat as [|n] eqn:Hn; [lia|].
  cbn [render_containers]. rewrite Hc.
  unfold flowables_left. rewrite next_container_chain.
  cbn [flowables _flowable_index].
  destruct (length (flowables (chains w self))
            - _flowable_index (chains w self))%nat as [|m] eqn:Hm; [lia|].
  cbn [flow_flowables]. rewrite next_container_chain.
  cbn [flowables _flowable_index]. rewrite Hf.
  pose proof (ContainerBase_flow_chains (B := B) c f (next_container self w))
    as [_ Htr].
  rewrite next_container_trace in Htr.
  destruct (ContainerBase_flow c f (next_container self w)) as [wa r].
  cbn [fst] in Htr.
  set (ev := Flowed self (_container_index (chains w self))
                    (_flowable_index (chains w self)) (raised r)).
  assert (∀ w' : World B, extends (log ev wa) w' →
                          ∃ more, trace w' = trace w ++ ev :: more) as Hfrom.
  { intros w' [more Hmore]. exists more.
    by rewrite Hmore, log_trace, Htr, <- app_assoc. }
  exists ev.
  destruct r as [v|e].
  - pose proof (flow_flowables_extends m self
                  (_container_index (chains w self)) c
                  (next_flowable self (log ev wa))) as Hext.
    destruct (flow_flowables m self _ c (next_flowable self (log ev wa)))
      as [w2 r2]. cbn [fst] in Hext.
    assert (extends (log ev wa) w2) as Hext2.
    { destruct Hext as [more Hmore]. exists more.
      by rewrite Hmore, next_flowable_trace. }
    destruct r2 as [v2|e2].
    + apply Hfrom. eapply extends_trans; [exact Hext2|].
      apply render_containers_extends.
    + destruct (_ <? _); [by apply Hfrom|].
      apply Hfrom. eapply extends_trans; [exact Hext2|].
      apply render_containers_extends.
  - destruct (_ <? _); [apply Hfrom, extends_refl|].
    apply Hfrom, render_containers_extends.
Qed.

(** X16.  When [Chain.render] has raised [EndOfPage] and a container is
    then added to the chain, the chain stands at the new container and at
    the flowable that did not fit, and the next [Chain.render] starts by
    flowing that flowable into the new container. *)
Theorem X16_resumes_in_new_container (self c : nat) (w : World B) :
  (Chain_render self w).2 = Raise (EndOfPage self) →
  _containers (chains (Chain_add_container self c (Chain_render self w).1) self)
    !! _container_index
         (chains (Chain_add_container self c (Chain_render self w).1) self)
    = Some c ∧
  (_flowable_index (chains (Chain_render self w).1 self)
     < length (flowables (chains w self)))%nat ∧
  ∃ o rest,
    trace (Chain_render self
             (Chain_add_container self c (Chain_render self w).1)).1
      = trace (Chain_render self w).1
        ++ Flowed self (length (_containers (chains w self)))
                  (_flowable_index (chains (Chain_render self w).1 self)) o
           :: rest.
Proof.
  intros Hraise.
  pose proof (render_containers_index (containers_left (chains w self)) self w
                ltac:(lia)) as Hci.
  unfold Chain_render in Hraise.
  destruct (render_containers_spec (containers_left (chains w self)) self w)
    as (new & _ & Hev & Hiff & _ & Hfl & Hcs & Hleft).
  fold (Chain_render self w) in *.
  destruct (proj1 Hiff Hraise) as (k & i & Hk & Hin).
  destruct (Hev _ Hin) as (k' & i' & o' & [= <- <- <-] & Hge).
  specialize (Hleft Hraise).
  assert (_container_index (chains (Chain_render self w).1 self)
          = length (_containers (chains w self))) as Hci' by lia.
  set (w1 := Chain_add_container self c (Chain_render self w).1).
  assert (chains w1 self
          = mkChain (flowables (chains w self))
                    (_containers (chains w self) ++ [c])
                    (length (_containers (chains w self)))
                    (_flowable_index (chains (Chain_render self w).1 self)))
    as Hw1.
  { unfold w1, Chain_add_container. cbn [chains].
    rewrite fn_lookup_insert. by rewrite Hfl, Hcs, Hci'. }
  assert (trace w1 = trace (Chain_render self w).1) as Htw1 by done.
  assert (_containers (chains w1 self) !! _container_index (chains w1 self)
          = Some c) as Hc.
  { rewrite Hw1. cbn [_containers _container_index].
    rewrite lookup_app_r by lia. by rewrite Nat.sub_diag. }
  split; [exact Hc|]. split; [exact Hleft|].
  destruct (lookup_lt_is_Some_2 (flowables (chains w self))
              (_flowable_index (chains (Chain_render self w).1 self)) Hleft)
    as [f Hf].
  destruct (Chain_render_starts self c f w1 Hc) as (ev & more & Hstart).
  { rewrite Hw1. exact Hf. }
  destruct (render_containers_turn (containers_left (chains w1 self)) self w1)
    as (new1 & Ht1 & Hturn & _).
  fold (Chain_render self w1) in Ht1.
  rewrite Hstart in Ht1. apply app_inv_head in Ht1. subst new1.
  rewrite Hw1 in Hturn. cbn [_container_index _flowable_index] in Hturn.
  destruct ev as [c0|ch k1 i1 o1]; cbn [in_turn] in Hturn; [done|].
  apply andb_prop in Hturn as [Hturn _].
  apply andb_prop in Hturn as [Hturn Hi1].
  apply andb_prop in Hturn as [Hch Hk1].
  apply Nat.eqb_eq in Hch, Hk1, Hi1. subst ch k1 i1.
  exists o1, more. by rewrite Hstart, Htw1.
Qed.
End ChainResume.

(** The children of container 9 are rendered, then its own flowable 5;
    chain 0, which it is bound to as well, is not touched. *)
Lemma X13_witness :
  chains (@ContainerBase_render object_truth Z (Block object_truth)
            (Node 9 [5%nat] (Some 0%nat) [Node 4 [3%nat] None []])
            example_world).1 0%nat
    = mkChain [0; 1; 2]%nat [0; 1]%nat 0 0.
Proof.
  destruct (@X13_own_flowables_shadow_chain object_truth Z
              (Block object_truth) 9%nat 5%nat [] (Some 0%nat)
              [Node 4 [3%nat] None []] example_world _ _ eq_refl)
    as [Hc _].
  rewrite Hc. reflexivity.
Defined.

(** The chain of the examples runs out of its two containers with the third
    block unplaced; container 7 is added, and the third block is the first
    thing flowed into it. *)
Lemma X16_witness :
  ∃ o rest,
    trace (@Chain_render object_truth Z (Block object_truth) 0
             (Chain_add_container 0 7
                (@Chain_render object_truth Z (Block object_truth) 0
                               example_world).1)).1
      = trace (@Chain_render object_truth Z (Block object_truth) 0
                             example_world).1
        ++ Flowed 0 2 2 o :: rest.
Proof.
  destruct (@X16_resumes_in_new_container object_truth Z (Block object_truth)
              0%nat 7%nat example_world eq_refl) as (_ & _ & o & rest & Ht).
  exists o, rest. exact Ht.
Defined.

(** ** [Document.render]: when a pass raises *)

Section PassRaises.
Context `{Dimension} {B : Type} `{FlowableClass B} `{DocumentClass B}.

Lemma render_pages_raises (fuel index : nat) (d d' : Document B)
    (r : outcome unit) :
  render_pages fuel index d = Some (d', r) →
  (∀ e, r = Raise e → e = EndOfContainer) ∧
  ((∀ ch, keeps_output (add_to_chain ch)) →
   cache d' = cache d ∧ written d' = written d).
Proof.
  revert index d. induction fuel as [|fuel IH]; intros index d;
    cbn [render_pages]; destruct (pages d !! index) as [page|];
    try (intros [= <- <-]; split; [by intros e [=] | done]); try done.
  destruct (Page_render page (objects d)) as [w [v|[|ch]]].
  - intros Hr. destruct (IH _ _ Hr) as [He Hk]. done.
  - intros [= <- <-]. split; [by intros e [= <-] | done].
  - intros Hr. destruct (IH _ _ Hr) as [He Hk]. split; [done|].
    intros Hadd. destruct (Hk Hadd) as [-> ->].
    by destruct (Hadd ch (with_objects d w)).
Qed.

Lemma render_loop_raises (fuel : nat) (d d' : Document B) (e : exn) :
  render_loop fuel d = Some (d', Raise e) →
  e = EndOfContainer ∧
  (keeps_output setup → (∀ ch, keeps_output (add_to_chain ch)) →
   cache d' = cache d ∧ written d' = written d).
Proof.
  unfold render_loop.
  destruct (render_pages fuel 0 (setup (clear_pages d)))
    as [[d1 [v|e1]]|] eqn:Hp; try done.
  intros [= <- <-]. destruct (render_pages_raises _ _ _ _ _ Hp) as [He Hk].
  split; [by apply He|]. intros Hsetup Hadd.
  destruct (Hk Hadd) as [-> ->]. by destruct (Hsetup (clear_pages d)).
Qed.

Lemma render_loop_output (fuel : nat) (d d' : Document B) (r : outcome Z) :
  keeps_output setup → (∀ ch, keeps_output (add_to_chain ch)) →
  render_loop fuel d = Some (d', r) →
  cache d' = cache d ∧ written d' = written d.
Proof.
  intros Hsetup Hadd. unfold render_loop.
  destruct (render_pages fuel 0 (setup (clear_pages d)))
    as [[d1 [v|e1]]|] eqn:Hp; try done;
    intros [= <- <-]; destruct (render_pages_raises _ _ _ _ _ Hp) as [_ Hk];
    destruct (Hk Hadd) as [-> ->]; by destruct (Hsetup (clear_pages d)).
Qed.

Lemma converge_raises (fuel : nat) (d d' : Document B) (e : exn) :
  converge fuel d = Some (d', Raise e) →
  e = EndOfContainer ∧
  (keeps_output setup → (∀ ch, keeps_output (add_to_chain ch)) →
   cache d' = cache d ∧ written d' = written d).
Proof.
  revert d. induction fuel as [|fuel IH]; intros d; cbn [converge];
    destruct (has_converged d); try done.
  destruct (render_loop fuel (remember d)) as [[d1 [n|e1]]|] eqn:Hp;
    try done.
  - intros Hc. destruct (IH _ Hc) as [He Hk]. split; [done|].
    intros Hsetup Hadd. destruct (Hk Hsetup Hadd) as [Hc1 Hw1].
    destruct (render_loop_output _ _ _ _ Hsetup Hadd Hp) as [Hc2 Hw2].
    rewrite Hc1, Hw1. unfold set_number_of_pages. cbn [cache written].
    by rewrite Hc2, Hw2.
  - intros [= <- <-]. by destruct (render_loop_raises _ _ _ _ Hp).
Qed.

Lemma load_cache_output (d : Document B) :
  cache (load_cache d) = cache d ∧ written (load_cache d) = written d.
Proof. unfold load_cache. by destruct (cache d) as [[? ?]|]. Qed.

(** X17.  [Document.render] never lets [EndOfPage] out: every [EndOfPage] a
    page raises is answered by [add_to_chain], and the only exception of
    the layout that can leave [render] is a plain [EndOfContainer] that a
    page let out.  When that happens the pass is cut short and, with a
    document class whose [setup] and [add_to_chain] touch neither, the
    cache file is not saved and no output is written. *)
Theorem X17_only_end_of_container_escapes (fuel : nat) (d dd : Document B)
    (e : exn) :
  Document_render fuel d = Some (dd, Raise e) →
  e = EndOfContainer ∧
  (keeps_output setup → (∀ ch, keeps_output (add_to_chain ch)) →
   cache dd = cache d ∧ written dd = written d).
Proof.
  unfold Document_render.
  destruct (render_loop fuel (load_cache d)) as [[d1 [n|e1]]|] eqn:Hp;
    try done.
  - destruct (converge fuel (set_number_of_pages d1 n))
      as [[d2 [[]|e2]]|] eqn:Hc; try done.
    intros [= <- <-]. destruct (converge_raises _ _ _ _ Hc) as [He Hk].
    split; [done|]. intros Hsetup Hadd.
    destruct (Hk Hsetup Hadd) as [Hc1 Hw1].
    destruct (render_loop_output _ _ _ _ Hsetup Hadd Hp) as [Hc2 Hw2].
    destruct (load_cache_output d) as [Hc3 Hw3].
    rewrite Hc1, Hw1. unfold set_number_of_pages. cbn [cache written].
    by rewrite Hc2, Hw2, Hc3, Hw3.
  - intros [= <- <-]. destruct (render_loop_raises _ _ _ _ Hp) as [He Hk].
    split; [done|]. intros Hsetup Hadd.
    destruct (Hk Hsetup Hadd) as [Hc1 Hw1].
    destruct (load_cache_output d) as [Hc3 Hw3].
    by rewrite Hc1, Hw1, Hc3, Hw3.
Qed.
End PassRaises.

Lemma X17_witness :
  ∃ dd, @Document_render object_truth Z (Block object_truth) overflowing 9
          cold_document = Some (dd, Raise EndOfContainer) ∧
        cache dd = None ∧ written dd = false.
Proof.
  eexists. split; [vm_compute; reflexivity|].
  match goal with
  | |- cache ?dd = _ ∧ _ =>
      destruct (@X17_only_end_of_container_escapes object_truth Z
                  (Block object_truth) overflowing 9 cold_document dd
                  EndOfContainer) as [_ Hk]
  end.
  - vm_compute; reflexivity.
  - apply Hk.
    + intros d0. split; reflexivity.
    + intros ch d0. split; reflexivity.
Defined.
